(** * yt-music-organizater: classifier, response cache and bulk fetch

    A shallow embedding of [music_categorizer.py] and [youtube_api.py].

    - Python [str] values are sequences of Unicode code points: [str] is
      [list N].  Literals of the source are written [lit "..."].
    - Code that can raise returns an [Outcome]; the exceptions that occur
      are the constructors of [Exn].
    - The file system used by the response cache is a finite map from
      paths to file contents, together with a test that tells which
      paths can be written.
    - The remote service is a record of request functions ([YouTube]);
      each request either answers or raises [HttpError].
    - [print] appends a message to the console of the [World].
    - [df.sort_values] is pandas code; it is a parameter of
      [sort_by_attribute]. *)

From Stdlib Require Import ZArith NArith Lia Bool String Ascii.
From stdpp Require Import base option list gmap.

Local Open Scope list_scope.

(** ** Python strings *)

Abbreviation char := N (only parsing).
Abbreviation str := (list N) (only parsing).

Definition lit (s : string) : str :=
  map N_of_ascii (list_ascii_of_string s).

(** [s.startswith(p)] *)
Fixpoint startswith (p s : str) : bool :=
  match p, s with
  | [], _ => true
  | _ :: _, [] => false
  | a :: p', b :: s' => N.eqb a b && startswith p' s'
  end.

(** [k in text] for two strings: [k] occurs as a contiguous run. *)
Fixpoint str_contains (text k : str) : bool :=
  startswith k text
  || match text with
     | [] => false
     | _ :: rest => str_contains rest k
     end.

(** [k in tags] for a list of strings: [k] equals one of the elements. *)
Definition list_contains (tags : list str) (k : str) : bool :=
  bool_decide (k ∈ tags).

(** ** Exceptions *)

Inductive Exn : Type :=
  | HttpError (status : Z) (content : str)
  | ValueError
  | KeyError
  | OSError
  | UnpicklingError
  | OverflowError.

Inductive Outcome (A : Type) : Type :=
  | Ok (a : A)
  | Raise (e : Exn).
Arguments Ok {A} a.
Arguments Raise {A} e.

Definition bind {A B} (x : Outcome A) (f : A -> Outcome B) : Outcome B :=
  match x with
  | Ok a => f a
  | Raise e => Raise e
  end.

Notation "'let!' x := e1 'in' e2" := (bind e1 (fun x => e2))
  (at level 10, x name, e1 at level 100, e2 at level 200).

(** ** The part of the [re] module that [year_pattern] uses *)

Module Re.

Inductive regex : Type :=
  | Lit (c : char)              (* one literal character *)
  | Class (lo hi : char)        (* [lo-hi] *)
  | Cat (r1 r2 : regex)         (* r1 r2 *)
  | Alt (r1 r2 : regex)         (* r1|r2, the left branch is tried first *)
  | Group (r : regex)           (* ( r ), capturing group 1 *)
  | WordB.                      (* \b *)

Section Engine.

(** [\w] on a [str] pattern is Unicode aware: ASCII letters, digits and
    the underscore, and beyond ASCII whatever the Unicode database
    classifies as alphanumeric.  That table is a parameter. *)
Variable unicode_alnum : char -> bool.

Definition ascii_digit (c : char) : bool := N.leb 48 c && N.leb c 57.
Definition ascii_upper (c : char) : bool := N.leb 65 c && N.leb c 90.
Definition ascii_lower (c : char) : bool := N.leb 97 c && N.leb c 122.

Definition is_word (c : char) : bool :=
  if N.ltb c 128
  then ascii_digit c || ascii_upper c || ascii_lower c || N.eqb c 95
  else unicode_alnum c.

Definition is_word_opt (c : option char) : bool :=
  match c with
  | Some x => is_word x
  | None => false
  end.

(** [\b]: exactly one side of the position is a word character; the two
    ends of the text count as non-word. *)
Definition at_boundary (prev : option char) (s : str) : bool :=
  xorb (is_word_opt prev) (is_word_opt (head s)).

(** Backtracking matcher at a fixed position.  [prev] is the character
    before the position, [s] the text from the position on, [cap] the
    text captured by group 1 so far, [k] what remains to be matched. *)
Fixpoint run {A : Type} (r : regex) (prev : option char) (s : str)
    (cap : option str)
    (k : option char -> str -> option str -> option A) : option A :=
  match r with
  | Lit c =>
      match s with
      | x :: s' => if N.eqb x c then k (Some x) s' cap else None
      | [] => None
      end
  | Class lo hi =>
      match s with
      | x :: s' => if N.leb lo x && N.leb x hi then k (Some x) s' cap else None
      | [] => None
      end
  | Cat r1 r2 =>
      run r1 prev s cap (fun p s' cap' => run r2 p s' cap' k)
  | Alt r1 r2 =>
      match run r1 prev s cap k with
      | Some a => Some a
      | None => run r2 prev s cap k
      end
  | Group r1 =>
      run r1 prev s cap
        (fun p s' _ => k p s' (Some (take (length s - length s') s)))
  | WordB =>
      if at_boundary prev s then k prev s cap else None
  end.

(** [pattern.match] at one position: group 1 of the match, if any. *)
Definition match_here (r : regex) (prev : option char) (s : str)
    : option (option str) :=
  run r prev s None (fun _ _ cap => Some cap).

(** [re.search]: the start positions are tried from left to right, the
    end of the text included. *)
Fixpoint search_from (r : regex) (prev : option char) (s : str)
    : option (option str) :=
  match match_here r prev s with
  | Some cap => Some cap
  | None =>
      match s with
      | [] => None
      | c :: s' => search_from r (Some c) s'
      end
  end.

Definition search (r : regex) (text : str) : option (option str) :=
  search_from r None text.

End Engine.

End Re.

(** ** [int(s)] for a string *)

(** The white space [int()] skips around the digits of an ASCII string:
    tab, line feed, vertical tab, form feed, carriage return and the
    blank.  The separators U+001C to U+001F count as white space for
    [str.strip] but not here. *)
Definition is_space (c : char) : bool :=
  (N.leb 9 c && N.leb c 13) || N.eqb c 32.

Definition digit_val (c : char) : option Z :=
  if Re.ascii_digit c then Some (Z.of_N c - 48)%Z else None.

(** Digits with single underscores between them, [acc] the value so far;
    [after_digit] tells whether the previous character was a digit. *)
Fixpoint int_digits (s : str) (acc : Z) (after_digit : bool) : option Z :=
  match s with
  | [] => if after_digit then Some acc else None
  | c :: s' =>
      match digit_val c with
      | Some d => int_digits s' (10 * acc + d)%Z true
      | None =>
          if N.eqb c 95 && after_digit
          then match s' with
               | [] => None
               | _ :: _ => int_digits s' acc false
               end
          else None
      end
  end.

Fixpoint lstrip (s : str) : str :=
  match s with
  | c :: s' => if is_space c then lstrip s' else s
  | [] => []
  end.
Definition strip (s : str) : str := reverse (lstrip (reverse (lstrip s))).

(** Base-10 [int()] on ASCII input: surrounding whitespace, an optional
    sign, digits.  Text with code points above 127 is rejected here
    (Python also accepts the decimal digits and spaces of other scripts). *)
Definition py_int (s : str) : Outcome Z :=
  let body := strip s in
  let '(negative, digits) :=
    match body with
    | 45 :: d => (true, d)
    | 43 :: d => (false, d)
    | _ => (false, body)
    end%N in
  match int_digits digits 0%Z false with
  | Some v => Ok (if negative then (- v)%Z else v)
  | None => Raise ValueError
  end.

(** ** youtube_api.py: data *)

(** The records the retrieval operations return ([music_item],
    [video_item]). *)
Record Song : Type := mkSong {
  id : str;
  title : str;
  channel : str;
  published_at : str;
  description : str;
  thumbnail : option str;
  duration : option Z;
  view_count : option Z;
  like_count : option Z;
  tags : list str;
  category : option str
}.

(** The non-empty dict [get_video_details] returns; the empty dict is
    [None]. *)
Record VideoDetails : Type := mkDetails {
  vd_duration : Z;
  vd_view_count : Z;
  vd_like_count : option Z;
  vd_tags : list str;
  vd_category : option str
}.

(** *** Answers of the remote service, with the fields the code reads *)

Record SearchItem : Type := mkSearchItem {
  si_videoId : str;                 (* item['id']['videoId'] *)
  si_title : str;
  si_channelTitle : str;
  si_publishedAt : str;
  si_description : str;
  si_thumb_high : option str        (* thumbnails['high']['url'], if 'high' is there *)
}.

Record VideoResource : Type := mkVideo {
  v_duration : str;                 (* contentDetails.duration, ISO 8601 *)
  v_viewCount : option str;         (* statistics.viewCount *)
  v_likeCount : option str;         (* statistics.likeCount *)
  v_tags : option (list str);       (* snippet.tags *)
  v_categoryId : option str         (* snippet.categoryId *)
}.

Record PlaylistItem : Type := mkPlaylistItem {
  pi_videoId : option str;          (* contentDetails.videoId, absent for removed videos *)
  pi_title : str;
  pi_position : Z;
  pi_publishedAt : str;
  pi_channelTitle : str;
  pi_description : option str;
  pi_thumb_high : option str
}.

Record PlaylistPage : Type := mkPage {
  items : list PlaylistItem;        (* .get('items', []) *)
  nextPageToken : option str        (* .get('nextPageToken') *)
}.

(** The client object [self.youtube]: every [....list(...).execute()]
    answers or raises [HttpError]. *)
Record YouTube : Type := mkYouTube {
  search_list : str -> nat -> Outcome (list SearchItem);
  videos_list : str -> Outcome (list VideoResource);
  playlistItems_list : str -> nat -> option str -> Outcome PlaylistPage;
  channels_list_mine : Outcome (list str)   (* relatedPlaylists.likes of each channel *)
}.

(** *** Cache files and the console *)

(** A [datetime] is counted in microseconds from [datetime.min], the
    start of year 1; the type holds the dates up to [datetime.max], the
    last microsecond of year 9999. *)
Definition datetime : Type := Z.
Definition datetime_max : datetime := 315537897599999999%Z.

Definition is_datetime (t : Z) : bool :=
  (0 <=? t)%Z && (t <=? datetime_max)%Z.

(** [h] hours in microseconds. *)
Definition timedelta_hours (h : Z) : Z := (h * 3600000000)%Z.

(** [timedelta(hours=h)]: the constructor raises [OverflowError] when
    the number of whole days leaves -999999999 .. 999999999. *)
Definition timedelta (h : Z) : Outcome Z :=
  if ((-999999999 <=? h / 24) && (h / 24 <=? 999999999))%Z
  then Ok (timedelta_hours h)
  else Raise OverflowError.

(** [t - delta] for a [datetime] and a [timedelta]: [OverflowError] when
    the result is not a [datetime]. *)
Definition datetime_sub (t : datetime) (delta : Z) : Outcome datetime :=
  if is_datetime (t - delta) then Ok (t - delta)%Z else Raise OverflowError.

Record CacheEntry : Type := mkEntry {
  timestamp : datetime;             (* cached_data['timestamp'] *)
  results : list Song               (* cached_data['results'] *)
}.

(** What a cache file holds: a pickle of an entry, or bytes that
    [pickle.load] rejects; [Unreadable] is a file that [open(p, 'rb')]
    refuses.  [Pickled e] is the file [pickle.dump] writes for [e] and
    from which [pickle.load] gives [e]: that the library reads back what
    it wrote is taken for granted here, the format itself is not
    modelled. *)
Inductive FileData : Type :=
  | Pickled (e : CacheEntry)
  | Garbage
  | Unreadable.

(** Paths are compared as strings.  [writable p] tells whether
    [open(p, 'wb')] succeeds (the parent directory exists and
    permissions allow it). *)
Record Storage : Type := mkStorage {
  files : gmap str FileData;
  writable : str -> bool
}.

Inductive Msg : Type :=
  | UsingCached (query : str)
  | HttpErrorOccurred (status : Z) (content : str)
  | OAuthRequired
  | PleaseInitialize
  | NoChannelFound
  | AttributeNotFound (attribute : str).

Record World : Type := mkWorld {
  fs : Storage;
  stdout : list Msg
}.

(** ** State and exceptions *)

Definition M (A : Type) : Type := World -> Outcome A * World.

Definition ret {A} (a : A) : M A := fun w => (Ok a, w).

Definition mbind {A B} (m : M A) (f : A -> M B) : M B :=
  fun w =>
    match m w with
    | (Ok a, w') => f a w'
    | (Raise e, w') => (Raise e, w')
    end.

Notation "'do' x <- e1 ;; e2" := (mbind e1 (fun x => e2))
  (at level 10, x name, e1 at level 99, e2 at level 200).

Definition lift {A} (o : Outcome A) : M A := fun w => (o, w).

Definition print (m : Msg) : M unit :=
  fun w => (Ok tt, {| fs := fs w; stdout := stdout w ++ [m] |}).

(** [try: body  except HttpError as e: handler] *)
Definition except_HttpError {A} (body : M A) (handler : Z -> str -> M A) : M A :=
  fun w =>
    match body w with
    | (Raise (HttpError status content), w') => handler status content w'
    | r => r
    end.

(** [os.path.exists(p)] *)
Definition os_path_exists (p : str) : M bool :=
  fun w => (Ok (bool_decide (is_Some (files (fs w) !! p))), w).

(** [with open(p, 'rb') as f: pickle.load(f)] *)
Definition pickle_load (p : str) : M CacheEntry :=
  fun w =>
    match files (fs w) !! p with
    | Some (Pickled e) => (Ok e, w)
    | Some Garbage => (Raise UnpicklingError, w)
    | Some Unreadable => (Raise OSError, w)
    | None => (Raise OSError, w)
    end.

(** [with open(p, 'wb') as f: pickle.dump(e, f)] *)
Definition pickle_dump (p : str) (e : CacheEntry) : M unit :=
  fun w =>
    if writable (fs w) p
    then (Ok tt, {| fs := {| files := <[p := Pickled e]> (files (fs w));
                             writable := writable (fs w) |};
                    stdout := stdout w |})
    else (Raise OSError, w).

(** ** The part of pandas that the reporting functions use *)

Inductive Value : Type :=
  | VInt (z : Z)
  | VStr (s : str)
  | VTags (l : list str)
  | NaN.

#[global] Instance Value_eq_dec : EqDecision Value.
Proof. solve_decision. Defined.

(** A row carries its index label and its cells; a cell that is not
    there reads as [NaN]. *)
Record Row : Type := mkRow {
  label : nat;
  cells : gmap str Value
}.

Record DataFrame : Type := mkFrame {
  columns : list str;
  rows : list Row
}.

Definition cell (attribute : str) (r : Row) : Value :=
  default NaN (cells r !! attribute).

(** Element-wise [==] of a column with a scalar: no coercion between
    numbers and text, a missing value equals nothing. *)
Definition cell_eqb (c value : Value) : bool :=
  match c, value with
  | VInt a, VInt b => Z.eqb a b
  | VStr a, VStr b => bool_decide (a = b)
  | _, _ => false
  end.

(** ** music_categorizer.py *)

Module MusicCategorizer.

(** A dict literal iterates in insertion order; the tables are kept as
    association lists in the order of the source. *)
Definition CategoryTable : Type := list (str * list str).

Definition genre_keywords : CategoryTable :=
  [ (lit "pop", [lit "pop"; lit "dance pop"; lit "electropop"]);
    (lit "rock", [lit "rock"; lit "alternative"; lit "indie"; lit "punk";
                  lit "metal"; lit "grunge"]);
    (lit "hip hop", [lit "hip hop"; lit "rap"; lit "trap"; lit "drill";
                     lit "r&b"; lit "rnb"]);
    (lit "electronic", [lit "edm"; lit "electronic"; lit "house";
                        lit "techno"; lit "dubstep"; lit "trance";
                        lit "drum and bass"]);
    (lit "country", [lit "country"; lit "folk"; lit "bluegrass";
                     lit "americana"]);
    (lit "jazz", [lit "jazz"; lit "blues"; lit "soul"; lit "funk"]);
    (lit "classical", [lit "classical"; lit "orchestra"; lit "piano";
                       lit "symphony"; lit "concerto"]);
    (lit "latin", [lit "latin"; lit "reggaeton"; lit "salsa";
                   lit "bachata"; lit "cumbia"]);
    (lit "k-pop", [lit "k-pop"; lit "kpop"; lit "k pop"]);
    (lit "j-pop", [lit "j-pop"; lit "jpop"; lit "j pop"]) ].

Definition mood_keywords : CategoryTable :=
  [ (lit "happy", [lit "happy"; lit "upbeat"; lit "uplifting";
                   lit "cheerful"; lit "fun"; lit "feel good"; lit "party"]);
    (lit "sad", [lit "sad"; lit "melancholy"; lit "heartbreak";
                 lit "emotional"; lit "tearful"; lit "ballad"]);
    (lit "relaxing", [lit "chill"; lit "relax"; lit "calm"; lit "peaceful";
                      lit "ambient"; lit "sleep"; lit "study"]);
    (lit "energetic", [lit "energetic"; lit "workout"; lit "fitness";
                       lit "gym"; lit "hype"; lit "energy"; lit "pump"]);
    (lit "romantic", [lit "love"; lit "romantic"; lit "romance";
                      lit "wedding"; lit "valentine"]) ].

(** The test of the inner loop: [keyword in text or keyword in tags]. *)
Definition keyword_hits (text : str) (tags : list str) (keyword : str) : bool :=
  str_contains text keyword || list_contains tags keyword.

(** [for keyword in keywords: if ...: return category].  The result
    records the keyword that triggered the return next to the category
    that is returned. *)
Fixpoint for_keywords (category : str) (keywords : list str)
    (text : str) (tags : list str) : option (str * str) :=
  match keywords with
  | [] => None
  | keyword :: rest =>
      if keyword_hits text tags keyword then Some (category, keyword)
      else for_keywords category rest text tags
  end.

(** [for category, keywords in table.items(): ...] *)
Fixpoint for_categories (table : CategoryTable)
    (text : str) (tags : list str) : option (str * str) :=
  match table with
  | [] => None
  | (category, keywords) :: rest =>
      match for_keywords category keywords text tags with
      | Some hit => Some hit
      | None => for_categories rest text tags
      end
  end.

Definition _detect_genre (text : str) (tags : list str) : str :=
  match for_categories genre_keywords text tags with
  | Some (genre, _) => genre
  | None => lit "unknown"
  end.

Definition _detect_mood (text : str) (tags : list str) : str :=
  match for_categories mood_keywords text tags with
  | Some (mood, _) => mood
  | None => lit "other"
  end.

(** [r'\b(19[0-9]{2}|20[0-2][0-9])\b'] *)
Definition year_pattern : Re.regex :=
  let digit := Re.Class 48%N 57%N in
  (Re.Cat Re.WordB
    (Re.Cat
      (Re.Group
        (Re.Alt
          (Re.Cat (Re.Lit 49) (Re.Cat (Re.Lit 57) (Re.Cat digit digit)))
          (Re.Cat (Re.Lit 50) (Re.Cat (Re.Lit 48)
            (Re.Cat (Re.Class 48 50) digit)))))
      Re.WordB))%N.

(** [None] of Python is [None] here; [year_match.group(1)] is always set
    when the pattern matches, an unset group would make [int] raise. *)
Definition _extract_year (unicode_alnum : char -> bool) (text : str)
    : Outcome (option Z) :=
  match Re.search unicode_alnum year_pattern text with
  | Some year_match =>
      match year_match with
      | Some group1 => let! y := py_int group1 in Ok (Some y)
      | None => Raise ValueError
      end
  | None => Ok None
  end.

(** [df.sort_values(by=attribute, ascending=ascending)] is pandas code;
    the call leaves [kind] at its default ['quicksort'] and
    [na_position] at ['last'].  It is the parameter [sort_values]. *)
Definition sort_by_attribute
    (sort_values : DataFrame -> str -> bool -> DataFrame)
    (df : DataFrame) (attribute : str) (ascending : bool) : M DataFrame :=
  if bool_decide (attribute ∈ columns df)
  then ret (sort_values df attribute ascending)
  else do _ <- print (AttributeNotFound attribute) ;;
       ret df.

Definition filter_by_attribute (df : DataFrame) (attribute : str)
    (value : Value) : M DataFrame :=
  if bool_decide (attribute ∈ columns df)
  then ret {| columns := columns df;
              rows := filter (fun r => cell_eqb (cell attribute r) value = true)
                        (rows df) |}
  else do _ <- print (AttributeNotFound attribute) ;;
       ret df.

(** [' '.join(parts)] *)
Fixpoint join_space (parts : list str) : str :=
  match parts with
  | [] => []
  | [part] => part
  | part :: rest => part ++ [32%N] ++ join_space rest
  end.

(** A dict with string keys, in insertion order. *)
Definition Dict : Type := list (str * Value).

(** [d[key] = v]: an existing key keeps its place, a new one goes last. *)
Fixpoint dict_set (key : str) (v : Value) (d : Dict) : Dict :=
  match d with
  | [] => [(key, v)]
  | (k, x) :: rest =>
      if decide (k = key) then (k, v) :: rest
      else (k, x) :: dict_set key v rest
  end.

Definition opt_cell {A} (f : A -> Value) (o : option A) : Value :=
  match o with
  | Some a => f a
  | None => NaN
  end.

(** A song record as the dict the retrieval operations build. *)
Definition song_dict (song : Song) : Dict :=
  [ (lit "id", VStr (id song));
    (lit "title", VStr (title song));
    (lit "channel", VStr (channel song));
    (lit "published_at", VStr (published_at song));
    (lit "description", VStr (description song));
    (lit "thumbnail", opt_cell VStr (thumbnail song));
    (lit "duration", opt_cell VInt (duration song));
    (lit "view_count", opt_cell VInt (view_count song));
    (lit "like_count", opt_cell VInt (like_count song));
    (lit "tags", VTags (tags song));
    (lit "category", opt_cell VStr (category song)) ].

(** [pd.DataFrame(records)]: the columns are the keys in the order in
    which they are first seen, the rows are numbered from 0, a key a
    record lacks is a missing value. *)
Definition first_seen (keys : list str) : list str :=
  foldl (fun seen k => if decide (k ∈ seen) then seen else seen ++ [k]) [] keys.

Definition DataFrame_of_records (records : list Dict) : DataFrame :=
  {| columns := first_seen (concat (map (map fst) records));
     rows := imap (fun i record => {| label := i; cells := list_to_map record |})
               records |}.

(** The text that is classified: [f"{title} {description} {' '.join(tags)}"],
    all in lower case.  [lower] is [str.lower]. *)
Definition song_text (lower : str -> str) (song : Song) : str :=
  lower (title song) ++ [32%N] ++ lower (description song) ++ [32%N]
  ++ join_space (map lower (tags song)).

(** The body of the loop of [categorize_songs] for one song. *)
Definition categorize_song (lower : str -> str) (unicode_alnum : char -> bool)
    (song : Song) : Outcome Dict :=
  let tags := map lower (tags song) in
  let text := song_text lower song in
  let genre := _detect_genre text tags in
  let mood := _detect_mood text tags in
  let! year := _extract_year unicode_alnum text in
  let categorized_song := song_dict song in
  Ok (dict_set (lit "release_year") (opt_cell VInt year)
        (dict_set (lit "mood") (VStr mood)
           (dict_set (lit "genre") (VStr genre) categorized_song))).

Fixpoint categorize_loop (lower : str -> str) (unicode_alnum : char -> bool)
    (songs_data : list Song) (categorized_songs : list Dict)
    : Outcome (list Dict) :=
  match songs_data with
  | [] => Ok categorized_songs
  | song :: rest =>
      let! categorized_song := categorize_song lower unicode_alnum song in
      categorize_loop lower unicode_alnum rest
        (categorized_songs ++ [categorized_song])
  end.

Definition categorize_songs (lower : str -> str) (unicode_alnum : char -> bool)
    (songs_data : list Song) : Outcome DataFrame :=
  let! categorized_songs := categorize_loop lower unicode_alnum songs_data [] in
  Ok (DataFrame_of_records categorized_songs).

End MusicCategorizer.

(** ** config.py *)

Definition MAX_RESULTS : nat := 50.
Definition CACHE_DIR : str := lit "./cache".

(** ** youtube_api.py: operations *)

(** [s.split(sep)] for a separator of one character. *)
Fixpoint split (sep : char) (s : str) : list str :=
  match s with
  | [] => [[]]
  | c :: s' =>
      if N.eqb c sep then [] :: split sep s'
      else match split sep s' with
           | piece :: pieces => (c :: piece) :: pieces
           | [] => [[c]]
           end
  end.

(** [a, b = pieces] *)
Definition unpack2 (pieces : list str) : Outcome (str * str) :=
  match pieces with
  | [a; b] => Ok (a, b)
  | _ => Raise ValueError
  end.

(** [posixpath.join(a, b)] *)
Definition os_path_join (a b : str) : str :=
  if startswith (lit "/") b then b
  else if bool_decide (a = []) || bool_decide (last a = Some 47%N) then a ++ b
  else a ++ lit "/" ++ b.

(** [s.replace(' ', '_')] *)
Definition replace_space (s : str) : str :=
  map (fun c => if N.eqb c 32 then 95%N else c) s.

(** [not token] is true for [None] and for the empty string. *)
Definition truthy (token : option str) : bool :=
  match token with
  | Some (_ :: _) => true
  | _ => false
  end.

Module YouTubeAPI.

Definition _parse_duration (duration_str : str) : Outcome Z :=
  let duration_str := drop 2 duration_str in
  let seconds := 0%Z in
  let! after_hours :=
    if str_contains duration_str (lit "H")
    then let! pieces := unpack2 (split 72%N duration_str) in
         let! hours := py_int (fst pieces) in
         Ok ((seconds + hours * 3600)%Z, snd pieces)
    else Ok (seconds, duration_str) in
  let seconds := fst after_hours in
  let duration_str := snd after_hours in
  let! after_minutes :=
    if str_contains duration_str (lit "M")
    then let! pieces := unpack2 (split 77%N duration_str) in
         let! minutes := py_int (fst pieces) in
         Ok ((seconds + minutes * 60)%Z, snd pieces)
    else Ok (seconds, duration_str) in
  let seconds := fst after_minutes in
  let duration_str := snd after_minutes in
  if str_contains duration_str (lit "S")
  then let! s := py_int (default [] (head (split 83%N duration_str))) in
       Ok (seconds + s)%Z
  else Ok seconds.

(** [int(statistics.get(key, 0))] *)
Definition int_or_zero (field : option str) : Outcome Z :=
  match field with
  | Some text => py_int text
  | None => Ok 0%Z
  end.

Definition get_video_details (youtube : YouTube) (video_id : str)
    : M (option VideoDetails) :=
  except_HttpError
    (do video_response <- lift (videos_list youtube video_id) ;;
     match video_response with
     | [] => ret None
     | video :: _ =>
         do duration <- lift (_parse_duration (v_duration video)) ;;
         do views <- lift (int_or_zero (v_viewCount video)) ;;
         do likes <- lift (match v_likeCount video with
                           | Some text => let! n := py_int text in Ok (Some n)
                           | None => Ok None
                           end) ;;
         ret (Some {| vd_duration := duration;
                      vd_view_count := views;
                      vd_like_count := likes;
                      vd_tags := default [] (v_tags video);
                      vd_category := v_categoryId video |})
     end)
    (fun status content =>
       do _ <- print (HttpErrorOccurred status content) ;;
       ret None).

(** [f"music_search_{query.replace(' ', '_')}.pkl"] *)
Definition cache_key (query : str) : str :=
  lit "music_search_" ++ replace_space query ++ lit ".pkl".

Definition cache_path (query : str) : str :=
  os_path_join CACHE_DIR (cache_key query).

(** Lines 107-113, the cache read.  [Some payload] is the early return of
    the cached results, [None] lets the caller go on to the fetch.  [now]
    is the value [datetime.now()] has when the test is made; the cut-off
    date [datetime.now() - timedelta(hours=cache_duration)] is computed
    once the file has been loaded. *)
Definition cache_get (cache_path : str) (cache_duration : Z) (now : datetime)
    (query : str) : M (option (list Song)) :=
  do found <- os_path_exists cache_path ;;
  if found : bool
  then do cached_data <- pickle_load cache_path ;;
       do cutoff <- lift (let! delta := timedelta cache_duration in
                          datetime_sub now delta) ;;
       if Z.gtb (timestamp cached_data) cutoff
       then do _ <- print (UsingCached query) ;;
            ret (Some (results cached_data))
       else ret None
  else ret None.

(** Lines 153-158, the cache write. *)
Definition cache_put (cache_path : str) (now : datetime) (payload : list Song)
    : M unit :=
  pickle_dump cache_path {| timestamp := now; results := payload |}.

(** Lines 130-151: one [music_item] per search result. *)
Fixpoint search_items (youtube : YouTube) (found : list SearchItem)
    (acc : list Song) : M (list Song) :=
  match found with
  | [] => ret acc
  | item :: rest =>
      let video_id := si_videoId item in
      do video_details <- get_video_details youtube video_id ;;
      let music_item :=
        {| id := video_id;
           title := si_title item;
           channel := si_channelTitle item;
           published_at := si_publishedAt item;
           description := si_description item;
           thumbnail := si_thumb_high item;
           duration := vd_duration <$> video_details;
           view_count := vd_view_count <$> video_details;
           like_count := video_details ≫= vd_like_count;
           tags := default [] (vd_tags <$> video_details);
           category := video_details ≫= vd_category |} in
      search_items youtube rest (acc ++ [music_item])
  end.

(** [now_read] and [now_write] are the two readings of [datetime.now()],
    at the freshness test and at the cache write. *)
Definition search_music (youtube : YouTube) (now_read now_write : datetime)
    (query : str) (max_results : nat) (cache_duration : Z)
    : M (list Song) :=
  let cache_path := cache_path query in
  do cached <- cache_get cache_path cache_duration now_read query ;;
  match cached with
  | Some payload => ret payload
  | None =>
      except_HttpError
        (do search_response <- lift (search_list youtube query max_results) ;;
         do found <- search_items youtube search_response [] ;;
         do _ <- cache_put cache_path now_write found ;;
         ret found)
        (fun status content =>
           do _ <- print (HttpErrorOccurred status content) ;;
           ret [])
  end.

(** What [get_playlist_items] returns for one entry. *)
Record PlaylistEntry : Type := mkPlaylistEntry {
  pe_id : str;
  pe_title : str;
  pe_position : Z;
  pe_published_at : str;
  pe_channel : str
}.

Fixpoint playlist_entries (found : list PlaylistItem)
    (videos : list PlaylistEntry) : Outcome (list PlaylistEntry) :=
  match found with
  | [] => Ok videos
  | item :: rest =>
      match pi_videoId item with
      | None => Raise KeyError
      | Some video_id =>
          playlist_entries rest
            (videos ++ [ {| pe_id := video_id;
                            pe_title := pi_title item;
                            pe_position := pi_position item;
                            pe_published_at := pi_publishedAt item;
                            pe_channel := pi_channelTitle item |} ])
      end
  end.

Definition get_playlist_items (youtube : YouTube) (playlist_id : str)
    (max_results : nat) : M (list PlaylistEntry) :=
  except_HttpError
    (do playlist_response <-
        lift (playlistItems_list youtube playlist_id max_results None) ;;
     lift (playlist_entries (items playlist_response) []))
    (fun status content =>
       do _ <- print (HttpErrorOccurred status content) ;;
       ret []).

(** Lines 286-310: the items of one page are appended to [videos]; an
    item without [videoId] is skipped. *)
Fixpoint liked_items (youtube : YouTube) (found : list PlaylistItem)
    (videos : list Song) : M (list Song) :=
  match found with
  | [] => ret videos
  | item :: rest =>
      match pi_videoId item with
      | None => liked_items youtube rest videos
      | Some video_id =>
          do video_details <- get_video_details youtube video_id ;;
          let video_item :=
            {| id := video_id;
               title := pi_title item;
               channel := pi_channelTitle item;
               published_at := pi_publishedAt item;
               description := default [] (pi_description item);
               thumbnail := pi_thumb_high item;
               duration := vd_duration <$> video_details;
               view_count := vd_view_count <$> video_details;
               like_count := video_details ≫= vd_like_count;
               tags := default [] (vd_tags <$> video_details);
               category := video_details ≫= vd_category |} in
          liked_items youtube rest (videos ++ [video_item])
      end
  end.

(** The size asked of the service for the next page. *)
Definition page_size (max_results : nat) (videos : list Song) : nat :=
  Nat.min 50 (max_results - length videos).

(** Lines 277-313, the body of the [while] loop up to the update of the
    token. *)
Definition liked_page (youtube : YouTube) (liked_playlist_id : str)
    (max_results : nat) (videos : list Song) (next_page_token : option str)
    : M (list Song * option str) :=
  do playlist_items_response <-
     lift (playlistItems_list youtube liked_playlist_id
             (page_size max_results videos) next_page_token) ;;
  do videos <- liked_items youtube (items playlist_items_response) videos ;;
  ret (videos, nextPageToken playlist_items_response).

(** The test of line 315. *)
Definition stop_after_page (max_results : nat) (videos : list Song)
    (next_page_token : option str) : bool :=
  negb (truthy next_page_token) || Nat.leb max_results (length videos).

(** The [while] loop, run for at most [fuel] pages; [None] when the loop
    has not ended by then. *)
Fixpoint liked_loop (fuel : nat) (youtube : YouTube) (liked_playlist_id : str)
    (max_results : nat) (videos : list Song) (next_page_token : option str)
    (w : World) : option (Outcome (list Song) * World) :=
  if Nat.ltb (length videos) max_results
  then match fuel with
       | O => None
       | S fuel' =>
           match liked_page youtube liked_playlist_id max_results
                   videos next_page_token w with
           | (Raise e, w') => Some (Raise e, w')
           | (Ok (videos', token'), w') =>
               if stop_after_page max_results videos' token'
               then Some (Ok videos', w')
               else liked_loop fuel' youtube liked_playlist_id max_results
                      videos' token' w'
           end
       end
  else Some (Ok videos, w).

Definition get_liked_videos (fuel : nat) (use_oauth : bool) (youtube : YouTube)
    (max_results : nat) (w : World) : option (Outcome (list Song) * World) :=
  if negb use_oauth
  then Some ((do _ <- print OAuthRequired ;;
              do _ <- print PleaseInitialize ;;
              ret []) w)
  else
    let handled (r : Outcome (list Song) * World) :=
      match r with
      | (Raise (HttpError status content), w') =>
          (do _ <- print (HttpErrorOccurred status content) ;; ret []) w'
      | _ => r
      end in
    match channels_list_mine youtube with
    | Raise e => Some (handled (Raise e, w))
    | Ok [] => Some ((do _ <- print NoChannelFound ;; ret []) w)
    | Ok (liked_playlist_id :: _) =>
        handled <$> liked_loop fuel youtube liked_playlist_id max_results [] None w
    end.

End YouTubeAPI.

Import MusicCategorizer.
Import YouTubeAPI.

(** * Vocabulary of the properties *)

(** ** Substrings *)

(** [occurs k text]: [k] is a contiguous run of [text]. *)
Definition occurs (k text : str) : Prop :=
  exists before after, text = before ++ k ++ after.

(** ** Keywords *)

Module Classifier.

(** The keyword is found in the text or is one of the tags. *)
Definition found (text : str) (tags : list str) (keyword : str) : Prop :=
  occurs keyword text \/ keyword ∈ tags.

(** No keyword of the table is found. *)
Definition silent (table : CategoryTable) (text : str) (tags : list str) : Prop :=
  forall category keywords keyword,
    (category, keywords) ∈ table -> keyword ∈ keywords ->
    ~ found text tags keyword.

End Classifier.

(** ** The year pattern *)

Module Year.

Section WithUnicode.

Variable unicode_alnum : char -> bool.

Abbreviation word := (Re.is_word_opt unicode_alnum).

(** The four characters spell 19dd or 20[0-2]d. *)
Definition year4 (a b c d : char) : bool :=
  (N.eqb a 49 && N.eqb b 57 && Re.ascii_digit c && Re.ascii_digit d)
  || (N.eqb a 50 && N.eqb b 48 && (N.leb 48 c && N.leb c 50) && Re.ascii_digit d).

(** Closed form of one match attempt of [year_pattern]. *)
Definition year_here (prev : option char) (s : str) : option (option str) :=
  match s with
  | a :: b :: c :: d :: rest =>
      if year4 a b c d && negb (word prev) && negb (word (head rest))
      then Some (Some [a; b; c; d])
      else None
  | _ => None
  end.

(** The character in front of position [i] of [s]; [prev] stands in
    front of position 0. *)
Definition char_before (prev : option char) (s : str) (i : nat) : option char :=
  match i with
  | O => prev
  | S j => s !! j
  end.

(** The number four decimal digits spell. *)
Definition year_value (a b c d : char) : Z :=
  (1000 * (Z.of_N a - 48) + 100 * (Z.of_N b - 48)
   + 10 * (Z.of_N c - 48) + (Z.of_N d - 48))%Z.

(** At position [i] of [text] stand four decimal digits that spell the
    year [y] of 1900..1999 or 2000..2029, with no word character directly
    in front of them or behind them. *)
Definition is_year_at (text : str) (i : nat) (y : Z) : Prop :=
  exists before a b c d after,
    text = before ++ [a; b; c; d] ++ after /\
    length before = i /\
    Re.ascii_digit a = true /\ Re.ascii_digit b = true /\
    Re.ascii_digit c = true /\ Re.ascii_digit d = true /\
    y = year_value a b c d /\
    ((1900 <= y <= 1999)%Z \/ (2000 <= y <= 2029)%Z) /\
    word (last before) = false /\
    word (head after) = false.

End WithUnicode.

End Year.

(** ** The response cache *)

Module Cache.

(** The world after a line was printed. *)
Definition printed (w : World) (m : Msg) : World :=
  {| fs := fs w; stdout := stdout w ++ [m] |}.

(** The world after [e] was stored at [p]. *)
Definition stored (w : World) (p : str) (e : CacheEntry) : World :=
  {| fs := {| files := <[p := Pickled e]> (files (fs w));
              writable := writable (fs w) |};
     stdout := stdout w |}.

(** The entry at [p] is still fresh at [now]. *)
Definition fresh (cache_duration : Z) (now : datetime) (e : CacheEntry) : Prop :=
  (now - timestamp e < timedelta_hours cache_duration)%Z.

#[global] Instance fresh_dec cache_duration now e :
  Decision (fresh cache_duration now e).
Proof. unfold fresh. apply _. Defined.

(** The cut-off date of the freshness test can be computed: the time to
    live makes a [timedelta], and [now] minus it is a [datetime]. *)
Definition cutoff_ok (cache_duration : Z) (now : datetime) : Prop :=
  (-999999999 <= cache_duration / 24 <= 999999999)%Z
  /\ (0 <= now - timedelta_hours cache_duration <= datetime_max)%Z.

#[global] Instance cutoff_ok_dec cache_duration now :
  Decision (cutoff_ok cache_duration now).
Proof. unfold cutoff_ok. apply _. Defined.

(** The file at [p] gives no fresh entry: it is absent, or its entry is
    tested and has expired. *)
Definition miss (w : World) (p : str) (cache_duration : Z) (now : datetime)
    : Prop :=
  files (fs w) !! p = None
  \/ exists e, files (fs w) !! p = Some (Pickled e)
              /\ cutoff_ok cache_duration now
              /\ ~ fresh cache_duration now e.

(** Lines 117-151: the search request and the details of every hit. *)
Definition fetch (youtube : YouTube) (query : str) (max_results : nat)
    : M (list Song) :=
  do search_response <- lift (search_list youtube query max_results) ;;
  search_items youtube search_response [].

End Cache.

(** ** The liked-videos loop *)

Module Liked.

(** The items of a page whose video still exists. *)
Definition existing (found : list PlaylistItem) : list PlaylistItem :=
  filter (fun item => is_Some (pi_videoId item)) found.

(** The service never puts more items on a page than were asked for. *)
Definition honours_page_size (youtube : YouTube) : Prop :=
  forall playlist_id size token page,
    playlistItems_list youtube playlist_id size token = Ok page ->
    length (items page) <= size.

(** A page that announces a further page carries at least one video that
    still exists. *)
Definition productive (youtube : YouTube) : Prop :=
  forall playlist_id size token page,
    playlistItems_list youtube playlist_id size token = Ok page ->
    truthy (nextPageToken page) = true ->
    omap pi_videoId (items page) <> [].

End Liked.

(** ** Durations *)

Module Duration.

(** A non-empty run of decimal digits. *)
Definition is_digits (ds : str) : Prop :=
  ds <> [] /\ Forall (fun c => Re.ascii_digit c = true) ds.

(** The number a run of decimal digits spells. *)
Definition decimal_value (ds : str) : Z :=
  foldl (fun acc c => (10 * acc + (Z.of_N c - 48))%Z) 0%Z ds.

(** A component of a duration that may be left out. *)
Definition field_ok (field : option str) : Prop :=
  match field with
  | Some ds => is_digits ds
  | None => True
  end.

Definition field_value (field : option str) : Z :=
  match field with
  | Some ds => decimal_value ds
  | None => 0%Z
  end.

(** The digits of a component followed by its designator. *)
Definition component (field : option str) (designator : char) : str :=
  match field with
  | Some ds => ds ++ [designator]
  | None => []
  end.

(** The part of an ISO 8601 duration behind [PT]: hours, minutes and
    seconds, each optional. *)
Definition iso_time (h m s : option str) : str :=
  component h 72 ++ component m 77 ++ component s 83.

(** A character that cannot occur in what [int] accepts. *)
Definition not_numeric (c : char) : Prop :=
  Re.ascii_digit c = false /\ is_space c = false
  /\ c <> 95%N /\ c <> 43%N /\ c <> 45%N.

End Duration.

(** ** Search hits and playlist entries *)

Module Hits.

(** The fields of a song that come from the listing itself. *)
Definition listed (song : Song)
    : str * str * str * str * str * option str :=
  (id song, title song, channel song, published_at song, description song,
   thumbnail song).

Definition hit_listed (item : SearchItem)
    : str * str * str * str * str * option str :=
  (si_videoId item, si_title item, si_channelTitle item, si_publishedAt item,
   si_description item, si_thumb_high item).

(** The song made of a search hit whose details are the empty dict. *)
Definition bare_song (item : SearchItem) : Song :=
  {| id := si_videoId item; title := si_title item;
     channel := si_channelTitle item; published_at := si_publishedAt item;
     description := si_description item; thumbnail := si_thumb_high item;
     duration := None; view_count := None; like_count := None;
     tags := []; category := None |}.

(** The world after the same line was printed [n] times. *)
Definition printed_times (w : World) (n : nat) (m : Msg) : World :=
  {| fs := fs w; stdout := stdout w ++ replicate n m |}.

(** [entry] is what [get_playlist_items] makes of [item]. *)
Definition entry_of (item : PlaylistItem) (entry : PlaylistEntry) : Prop :=
  pi_videoId item = Some (pe_id entry)
  /\ pe_title entry = pi_title item
  /\ pe_position entry = pi_position item
  /\ pe_published_at entry = pi_publishedAt item
  /\ pe_channel entry = pi_channelTitle item.

(** [song] is what the liked-videos loop makes of an item of [found]. *)
Definition liked_from (found : list PlaylistItem) (song : Song) : Prop :=
  exists item,
    item ∈ found
    /\ pi_videoId item = Some (id song)
    /\ title song = pi_title item
    /\ channel song = pi_channelTitle item
    /\ published_at song = pi_publishedAt item.

(** The two queries are equal once blanks and underscores are taken for
    the same character. *)
Definition same_up_to_blanks (q1 q2 : str) : Prop :=
  Forall2 (fun a b => a = b \/ ((a = 32 \/ a = 95) /\ (b = 32 \/ b = 95))%N)
    q1 q2.

End Hits.

(** ** Categorized songs *)

Module Frames.

(** The values [filter_by_attribute] is given: a number, a text or the
    missing value.  A list as the value makes pandas compare the column
    with it position by position, which is not the comparison of
    [cell_eqb]. *)
Definition scalar (value : Value) : Prop :=
  match value with
  | VTags _ => False
  | _ => True
  end.

(** The genre, mood and year [categorize_songs] finds for a song. *)
Definition genre_of (lower : str -> str) (song : Song) : str :=
  _detect_genre (song_text lower song) (map lower (tags song)).

Definition mood_of (lower : str -> str) (song : Song) : str :=
  _detect_mood (song_text lower song) (map lower (tags song)).

Definition year_of (lower : str -> str) (unicode_alnum : char -> bool)
    (song : Song) : option Z :=
  match _extract_year unicode_alnum (song_text lower song) with
  | Ok year => year
  | Raise _ => None
  end.

(** The columns of a frame of categorized songs. *)
Definition column_names : list str :=
  [lit "id"; lit "title"; lit "channel"; lit "published_at";
   lit "description"; lit "thumbnail"; lit "duration"; lit "view_count";
   lit "like_count"; lit "tags"; lit "category"; lit "genre"; lit "mood";
   lit "release_year"].

(** The dict of a song with the three derived entries. *)
Definition enriched (song : Song) (genre mood : str) (year : option Z) : Dict :=
  song_dict song
  ++ [ (lit "genre", VStr genre); (lit "mood", VStr mood);
       (lit "release_year", opt_cell VInt year) ].

(** The row of the frame for the song at position [i]. *)
Definition row_of (lower : str -> str) (unicode_alnum : char -> bool)
    (i : nat) (song : Song) : Row :=
  {| label := i;
     cells := list_to_map
                (enriched song (genre_of lower song) (mood_of lower song)
                   (year_of lower unicode_alnum song)) |}.

End Frames.

(** ** Sample services, worlds and frames *)

(** Noon of 4 November 2026, and a quarter of an hour later. *)
Definition noon : datetime := 63929390400000000%Z.
Definition quarter_past : datetime := 63929391300000000%Z.

(** A world with an empty cache directory in which every file may be
    written, nothing printed yet. *)
Definition empty_world : World :=
  {| fs := {| files := ∅; writable := fun _ => true |}; stdout := [] |}.

Definition song_a : Song :=
  {| id := lit "dQw4"; title := lit "Song A"; channel := lit "Channel";
     published_at := lit "2020-01-01T00:00:00Z"; description := [];
     thumbnail := None; duration := Some 212%Z; view_count := Some 10%Z;
     like_count := None; tags := [lit "pop"]; category := Some (lit "10") |}.

(** A service that cannot be reached: every request raises. *)
Definition offline : YouTube :=
  let unavailable := HttpError 503 (lit "backendError") in
  {| search_list := fun _ _ => Raise unavailable;
     videos_list := fun _ => Raise unavailable;
     playlistItems_list := fun _ _ _ => Raise unavailable;
     channels_list_mine := Raise unavailable |}.

Definition hit_a : SearchItem :=
  {| si_videoId := lit "dQw4"; si_title := lit "Song A";
     si_channelTitle := lit "Channel";
     si_publishedAt := lit "2020-01-01T00:00:00Z";
     si_description := []; si_thumb_high := None |}.

Definition video_a : VideoResource :=
  {| v_duration := lit "PT3M32S"; v_viewCount := Some (lit "10");
     v_likeCount := None; v_tags := Some [lit "pop"];
     v_categoryId := Some (lit "10") |}.

(** A liked entry; [None] is a video that was removed after being liked. *)
Definition liked (video_id : option str) : PlaylistItem :=
  {| pi_videoId := video_id; pi_title := lit "Song A"; pi_position := 0;
     pi_publishedAt := lit "2020-01-01T00:00:00Z";
     pi_channelTitle := lit "Channel"; pi_description := Some [];
     pi_thumb_high := None |}.

(** A service with one search hit whose playlist requests fail once the
    first page has been served. *)
Definition one_hit : YouTube :=
  {| search_list := fun _ _ => Ok [hit_a];
     videos_list := fun _ => Ok [video_a];
     playlistItems_list := fun _ _ token =>
       match token with
       | None => Ok {| items := [liked (Some (lit "dQw4")); liked None];
                       nextPageToken := Some (lit "p2") |}
       | Some _ => Raise (HttpError 500 (lit "backendError"))
       end;
     channels_list_mine := Ok [lit "LL"] |}.

(** The cache file of the query ['x'] holds bytes that are no pickle. *)
Definition corrupt_world : World :=
  {| fs := {| files := {[ cache_path (lit "x") := Garbage ]};
              writable := fun _ => true |};
     stdout := [] |}.

(** The cache directory as [__init__] leaves it: empty, without
    subdirectories, so a file can be created directly in it only. *)
Definition fresh_cache_dir : World :=
  {| fs := {| files := ∅;
              writable := fun p =>
                startswith (lit "./cache/") p
                && negb (str_contains (drop 8 p) (lit "/")) |};
     stdout := [] |}.

(** A source that puts three videos on every page, whatever size was
    asked for, and has no further page. *)
Definition generous : YouTube :=
  {| search_list := fun _ _ => Ok [];
     videos_list := fun _ => Ok [video_a];
     playlistItems_list := fun _ _ _ =>
       Ok {| items := replicate 3 (liked (Some (lit "dQw4")));
             nextPageToken := None |};
     channels_list_mine := Ok [lit "LL"] |}.

(** A source of [total] liked videos that serves them in pages of the
    size asked for, at most 50; the token of a page is the number of
    videos before it, written as that many characters. *)
Definition paged (total : nat) : YouTube :=
  {| search_list := fun _ _ => Ok [];
     videos_list := fun _ => Ok [video_a];
     playlistItems_list := fun _ size token =>
       let offset := length (default [] token) in
       let served := Nat.min (Nat.min size 50) (total - offset) in
       Ok {| items := replicate served (liked (Some (lit "dQw4")));
             nextPageToken :=
               if Nat.ltb (offset + served) total
               then Some (replicate (offset + served) 46%N)
               else None |};
     channels_list_mine := Ok [lit "LL"] |}.

Definition row_a : Row :=
  {| label := 0;
     cells := {[ lit "title" := VStr (lit "Song A");
                 lit "view_count" := VInt 5 ]} |}.

Definition row_b : Row :=
  {| label := 1;
     cells := {[ lit "title" := VStr (lit "Song B");
                 lit "view_count" := VInt 5 ]} |}.

(** Two songs with the same number of views. *)
Definition two_songs : DataFrame :=
  {| columns := [lit "title"; lit "view_count"]; rows := [row_a; row_b] |}.

(** A service whose only hit is a video that lasts more than a day. *)
Definition long_video : YouTube :=
  {| search_list := fun _ _ => Ok [hit_a];
     videos_list := fun _ =>
       Ok [ {| v_duration := lit "P1DT2H3M4S"; v_viewCount := Some (lit "10");
               v_likeCount := None; v_tags := None; v_categoryId := None |} ];
     playlistItems_list := fun _ _ _ => Ok {| items := []; nextPageToken := None |};
     channels_list_mine := Ok [] |}.

(** A service whose search answers and whose details requests all fail. *)
Definition no_details : YouTube :=
  {| search_list := fun _ _ => Ok [hit_a; hit_a];
     videos_list := fun _ => Raise (HttpError 403 (lit "quotaExceeded"));
     playlistItems_list := fun _ _ _ => Ok {| items := []; nextPageToken := None |};
     channels_list_mine := Ok [] |}.

(** A source of three liked videos the second of which has been removed,
    on one page that is cut to the size asked for. *)
Definition one_removed : YouTube :=
  {| search_list := fun _ _ => Ok [];
     videos_list := fun _ => Ok [video_a];
     playlistItems_list := fun _ size _ =>
       Ok {| items := take size [liked (Some (lit "dQw4")); liked None;
                                 liked (Some (lit "dQw4"))];
             nextPageToken := None |};
     channels_list_mine := Ok [lit "LL"] |}.

(** A playlist of two videos the second of which has been removed. *)
Definition with_removed : YouTube :=
  {| search_list := fun _ _ => Ok [];
     videos_list := fun _ => Ok [video_a];
     playlistItems_list := fun _ _ _ =>
       Ok {| items := [liked (Some (lit "dQw4")); liked None];
             nextPageToken := None |};
     channels_list_mine := Ok [lit "LL"] |}.

(** * Lemmas *)

(** ** Substrings *)

Lemma startswith_spec (p s : str) :
  startswith p s = true <-> exists after, s = p ++ after.
Proof.
  revert s. induction p as [|a p IH]; intros s; simpl.
  - split; [intros _; by exists s | done].
  - destruct s as [|b s].
    + split; [done | intros [after H]; discriminate H].
    + rewrite andb_true_iff, N.eqb_eq, IH. split.
      * intros [-> [after ->]]. by exists after.
      * intros [after H]. injection H as -> ->. split; [done | by exists after].
Qed.

Lemma str_contains_spec (text k : str) :
  str_contains text k = true <-> occurs k text.
Proof.
  unfold occurs. induction text as [|c text IH]; simpl.
  - rewrite orb_false_r, startswith_spec. split.
    + intros [after H]. by exists [], after.
    + intros [before [after H]].
      destruct before as [|x before]; [by exists after | discriminate H].
  - rewrite orb_true_iff, startswith_spec, IH. split.
    + intros [[after H] | [before [after H]]].
      * by exists [], after.
      * exists (c :: before), after. by rewrite H.
    + intros [before [after H]]. destruct before as [|x before].
      * left. by exists after.
      * right. injection H as -> ->. by exists before, after.
Qed.

Lemma list_contains_spec (tags : list str) (k : str) :
  list_contains tags k = true <-> k ∈ tags.
Proof. unfold list_contains. apply bool_decide_eq_true. Qed.

(** ** The examples of the specification *)

Example detect_genre_examples :
  _detect_genre (lit "best pop and rock hits") [] = lit "pop"
  /\ _detect_genre (lit "best rock and pop hits") [] = lit "pop"
  /\ _detect_genre (lit "popular science") [] = lit "pop"
  /\ _detect_genre (lit "a quiet evening") [lit "jazz"] = lit "jazz"
  /\ _detect_genre (lit "a quiet evening") [lit "jazzy"] = lit "unknown"
  /\ _detect_mood (lit "a quiet evening") [] = lit "other".
Proof. repeat split; vm_compute; reflexivity. Qed.

Example extract_year_examples :
  _extract_year (fun _ => false) (lit "remastered 1999 edition") = Ok (Some 1999%Z)
  /\ _extract_year (fun _ => false) (lit "released 2023") = Ok (Some 2023%Z)
  /\ _extract_year (fun _ => false) (lit "catalog number 193847") = Ok None
  /\ _extract_year (fun _ => false) (lit "live 1987, reissued 2001") = Ok (Some 1987%Z)
  /\ _extract_year (fun _ => false) (lit "tour_2019 and 2030") = Ok None.
Proof. repeat split; vm_compute; reflexivity. Qed.

Example parse_duration_examples :
  _parse_duration (lit "PT1H2M3S") = Ok 3723%Z
  /\ _parse_duration (lit "PT4M13S") = Ok 253%Z
  /\ _parse_duration (lit "P1DT2H") = Raise ValueError.
Proof. repeat split; vm_compute; reflexivity. Qed.

(** ** Keywords *)

Module ClassifierFacts.
Import Classifier.

Lemma keyword_hits_spec text tags keyword :
  keyword_hits text tags keyword = true <-> found text tags keyword.
Proof.
  unfold keyword_hits, found.
  by rewrite orb_true_iff, str_contains_spec, list_contains_spec.
Qed.

Lemma keyword_hits_false text tags keyword :
  keyword_hits text tags keyword = false <-> ~ found text tags keyword.
Proof.
  rewrite <- keyword_hits_spec.
  destruct (keyword_hits text tags keyword); naive_solver.
Qed.

Lemma for_keywords_none category keywords text tags :
  for_keywords category keywords text tags = None <->
  forall keyword, keyword ∈ keywords -> ~ found text tags keyword.
Proof.
  induction keywords as [|k ks IH]; simpl.
  - split; [intros _ k Hk; by apply elem_of_nil in Hk | done].
  - destruct (keyword_hits text tags k) eqn:Hk.
    + split; [done |]. intros H. exfalso.
      apply (H k); [left | by apply keyword_hits_spec].
    + rewrite IH. apply keyword_hits_false in Hk. split.
      * intros H k' [-> | Hin]%elem_of_cons; [done | by apply H].
      * intros H k' Hin. apply H. by right.
Qed.

(** The inner loop returns at the first keyword, in listed order, that is
    found. *)
Lemma for_keywords_some category keywords text tags hit :
  for_keywords category keywords text tags = Some hit <->
  exists earlier keyword later,
    keywords = earlier ++ keyword :: later /\
    hit = (category, keyword) /\
    found text tags keyword /\
    (forall k, k ∈ earlier -> ~ found text tags k).
Proof.
  induction keywords as [|k ks IH]; simpl.
  - split; [done |]. intros (earlier & kw & later & H & _).
    by destruct earlier.
  - destruct (keyword_hits text tags k) eqn:Hk.
    + apply keyword_hits_spec in Hk. split.
      * intros [= <-]. exists [], k, ks. repeat split; try done.
        intros k' Hk'. by apply elem_of_nil in Hk'.
      * intros (earlier & kw & later & H & -> & Hf & Hno).
        destruct earlier as [|e earlier]; simpl in H.
        -- by injection H as <- _.
        -- injection H as <- _. exfalso. apply (Hno k); [left | done].
    + apply keyword_hits_false in Hk. rewrite IH. split.
      * intros (earlier & kw & later & -> & -> & Hf & Hno).
        exists (k :: earlier), kw, later. repeat split; try done.
        intros k' [-> | Hin]%elem_of_cons; [done | by apply Hno].
      * intros (earlier & kw & later & H & -> & Hf & Hno).
        destruct earlier as [|e earlier]; simpl in H.
        -- injection H as <- _. done.
        -- injection H as <- ->. exists earlier, kw, later.
           repeat split; try done. intros k' Hin. apply Hno. by right.
Qed.

Lemma for_categories_none table text tags :
  for_categories table text tags = None <-> silent table text tags.
Proof.
  unfold silent. induction table as [|[c ks] table IH]; simpl.
  - split; [intros _ c ks k H; by apply elem_of_nil in H | done].
  - destruct (for_keywords c ks text tags) as [hit|] eqn:Hks.
    + split; [done |]. intros H. exfalso.
      apply for_keywords_some in Hks as (earlier & kw & later & -> & _ & Hf & _).
      apply (H c (earlier ++ kw :: later) kw); [left | | done].
      apply elem_of_app. right. left.
    + rewrite IH. split.
      * intros H c' ks' k' [[= -> ->] | Hin]%elem_of_cons Hk'.
        -- by apply (proj1 (for_keywords_none c ks text tags) Hks).
        -- by apply (H c' ks').
      * intros H c' ks' k' Hin. apply (H c' ks'). by right.
Qed.

(** The outer loop returns at the first category, in table order, one of
    whose keywords is found. *)
Lemma for_categories_first table earlier category keywords later text tags :
  table = earlier ++ (category, keywords) :: later ->
  silent earlier text tags ->
  (exists keyword, keyword ∈ keywords /\ found text tags keyword) ->
  exists keyword,
    for_categories table text tags = Some (category, keyword) /\
    for_keywords category keywords text tags = Some (category, keyword).
Proof.
  intros -> Hsilent (kw & Hin & Hf).
  induction earlier as [|[c ks] earlier IH]; simpl.
  - destruct (for_keywords category keywords text tags) as [hit|] eqn:Hks.
    + pose proof Hks as Hks'.
      apply for_keywords_some in Hks' as (e & k & l & _ & -> & _).
      by exists k.
    + exfalso. by apply (proj1 (for_keywords_none _ _ _ _) Hks kw).
  - assert (for_keywords c ks text tags = None) as ->.
    { apply for_keywords_none. intros k Hk. apply (Hsilent c ks); [left | done]. }
    apply IH. intros c' ks' k' Hc'. apply (Hsilent c' ks'). by right.
Qed.

End ClassifierFacts.

(** ** The year pattern *)

Module YearFacts.
Import Year.

Section WithUnicode.

Variable unicode_alnum : char -> bool.

Abbreviation word := (Re.is_word_opt unicode_alnum).
Abbreviation year_here := (Year.year_here unicode_alnum).
Abbreviation is_year_at := (Year.is_year_at unicode_alnum).

Lemma word_digit (c : char) :
  Re.ascii_digit c = true -> Re.is_word unicode_alnum c = true.
Proof.
  unfold Re.is_word, Re.ascii_digit. intros H.
  apply andb_true_iff in H as [H1 H2].
  apply N.leb_le in H1, H2.
  assert (N.ltb c 128 = true) as -> by (apply N.ltb_lt; lia).
  assert (N.leb 48 c = true) as -> by (apply N.leb_le; lia).
  assert (N.leb c 57 = true) as -> by (apply N.leb_le; lia).
  reflexivity.
Qed.

Lemma take4 (a b c d : char) (rest : str) :
  take (length (a :: b :: c :: d :: rest) - length rest) (a :: b :: c :: d :: rest)
  = [a; b; c; d].
Proof.
  replace (length (a :: b :: c :: d :: rest) - length rest) with 4
    by (cbn [length]; lia).
  reflexivity.
Qed.

Lemma match_here_year (prev : option char) (s : str) :
  Re.match_here unicode_alnum year_pattern prev s = year_here prev s.
Proof.
  unfold Re.match_here, year_pattern, year_here, year4. cbn [Re.run].
  unfold Re.at_boundary at 1.
  destruct s as [|a [|b [|c [|d rest]]]]; cbn [head].
  1-4: by repeat case_match.
  rewrite take4. unfold Re.at_boundary. cbn [head Re.is_word_opt].
  fold (Re.ascii_digit c) (Re.ascii_digit d).
  assert (Hd : Re.ascii_digit d = true -> Re.is_word unicode_alnum d = true)
    by apply word_digit.
  destruct (Re.ascii_digit d); [rewrite (Hd eq_refl) | ]; clear Hd.
  - destruct (N.eqb_spec a 49) as [-> | Ha].
    + change (Re.is_word unicode_alnum 49) with true.
      destruct (word prev), (N.eqb b 57), (Re.ascii_digit c),
        (Re.is_word_opt unicode_alnum (head rest)); reflexivity.
    + destruct (N.eqb_spec a 50) as [-> | Hb].
      * change (Re.is_word unicode_alnum 50) with true.
        destruct (word prev), (N.eqb b 48), (N.leb 48 c && N.leb c 50),
          (Re.is_word_opt unicode_alnum (head rest)); reflexivity.
      * destruct (xorb (word prev) (Re.is_word unicode_alnum a));
          reflexivity.
  - destruct (xorb (word prev) (Re.is_word unicode_alnum a)),
      (N.eqb a 49), (N.eqb b 57), (Re.ascii_digit c), (N.eqb a 50),
      (N.eqb b 48), (N.leb 48 c && N.leb c 50); reflexivity.
Qed.

Lemma char_before_cons prev c s i :
  char_before prev (c :: s) (S i) = char_before (Some c) s i.
Proof. by destruct i. Qed.

(** [re.search] answers with the leftmost position at which an attempt
    succeeds. *)
Lemma search_from_some (prev : option char) (s : str) (cap : option str) :
  Re.search_from unicode_alnum year_pattern prev s = Some cap <->
  exists i,
    year_here (char_before prev s i) (drop i s) = Some cap /\
    forall j, j < i -> year_here (char_before prev s j) (drop j s) = None.
Proof.
  revert prev. induction s as [|c s IH]; intros prev.
  - cbn [Re.search_from]. rewrite match_here_year. cbn. split; [done |].
    intros [i [H _]]. by rewrite drop_nil in H.
  - cbn [Re.search_from]. rewrite match_here_year.
    destruct (year_here prev (c :: s)) as [cap0|] eqn:Hhere.
    + split.
      * intros [= <-]. exists 0. split; [done | intros j Hj; lia].
      * intros [i [Hi Hmin]]. destruct i as [|i].
        -- change (year_here prev (c :: s) = Some cap) in Hi. congruence.
        -- specialize (Hmin 0 ltac:(lia)).
           change (year_here prev (c :: s) = None) in Hmin. congruence.
    + rewrite IH. split.
      * intros [i [Hi Hmin]]. exists (S i). split.
        -- by rewrite char_before_cons.
        -- intros [|j] Hj; [done |]. rewrite char_before_cons.
           apply Hmin. lia.
      * intros [[|i] [Hi Hmin]].
        -- change (year_here prev (c :: s) = Some cap) in Hi. congruence.
        -- exists i. rewrite char_before_cons in Hi. split; [done |].
           intros j Hj. specialize (Hmin (S j) ltac:(lia)).
           by rewrite char_before_cons in Hmin.
Qed.

Lemma search_from_none (prev : option char) (s : str) :
  Re.search_from unicode_alnum year_pattern prev s = None <->
  forall i, year_here (char_before prev s i) (drop i s) = None.
Proof.
  revert prev. induction s as [|c s IH]; intros prev.
  - cbn [Re.search_from]. rewrite match_here_year. cbn. split; [| done].
    intros _ i. by rewrite drop_nil.
  - cbn [Re.search_from]. rewrite match_here_year.
    destruct (year_here prev (c :: s)) as [cap0|] eqn:Hhere.
    + split; [done |]. intros H. specialize (H 0).
      change (year_here prev (c :: s) = None) in H. congruence.
    + rewrite IH. split.
      * intros H [|i]; [done |]. rewrite char_before_cons. apply H.
      * intros H i. specialize (H (S i)). by rewrite char_before_cons in H.
Qed.

Lemma ascii_digit_range (c : char) :
  Re.ascii_digit c = true <-> (48 <= c <= 57)%N.
Proof.
  unfold Re.ascii_digit. rewrite andb_true_iff, !N.leb_le. tauto.
Qed.

Lemma year4_spec (a b c d : char) :
  year4 a b c d = true <->
  Re.ascii_digit a = true /\ Re.ascii_digit b = true /\
  Re.ascii_digit c = true /\ Re.ascii_digit d = true /\
  ((1900 <= year_value a b c d <= 1999)%Z \/
   (2000 <= year_value a b c d <= 2029)%Z).
Proof.
  unfold year4, year_value.
  rewrite orb_true_iff, !andb_true_iff, !N.eqb_eq, !N.leb_le,
    !ascii_digit_range.
  lia.
Qed.

Lemma is_space_digit (c : char) :
  Re.ascii_digit c = true -> is_space c = false.
Proof.
  rewrite ascii_digit_range. intros H. unfold is_space.
  apply orb_false_iff. split.
  - apply andb_false_iff. right. apply N.leb_gt. lia.
  - apply N.eqb_neq. lia.
Qed.

Lemma digit_val_digit (c : char) :
  Re.ascii_digit c = true -> digit_val c = Some (Z.of_N c - 48)%Z.
Proof. intros H. unfold digit_val. by rewrite H. Qed.

(** [int] of four decimal digits is the number they spell. *)
Lemma py_int_digits4 (a b c d : char) :
  Re.ascii_digit a = true -> Re.ascii_digit b = true ->
  Re.ascii_digit c = true -> Re.ascii_digit d = true ->
  py_int [a; b; c; d] = Ok (year_value a b c d).
Proof.
  intros Ha Hb Hc Hd. unfold py_int, strip.
  cbn [lstrip]. rewrite (is_space_digit a Ha).
  change (reverse [a; b; c; d]) with [d; c; b; a].
  cbn [lstrip]. rewrite (is_space_digit d Hd).
  change (reverse [d; c; b; a]) with [a; b; c; d].
  pose proof (proj1 (ascii_digit_range a) Ha) as Hrange.
  assert (a = 48 \/ a = 49 \/ a = 50 \/ a = 51 \/ a = 52 \/ a = 53 \/
          a = 54 \/ a = 55 \/ a = 56 \/ a = 57)%N as Hcases by lia.
  clear Hrange.
  repeat (destruct Hcases as [-> | Hcases]); try subst a;
    cbn -[digit_val year_value Z.mul Z.add Z.sub Z.of_N];
    repeat (rewrite digit_val_digit by first [assumption | reflexivity];
            cbn [int_digits]);
    f_equal; unfold year_value; lia.
Qed.

Lemma char_before_last (before rest : str) :
  char_before None (before ++ rest) (length before) = last before.
Proof.
  destruct before as [|x l]; [done |].
  cbn [length char_before]. rewrite last_lookup. cbn [length pred].
  change ((x :: l) ++ rest) with ((x :: l) ++ rest).
  apply lookup_app_l. cbn [length]. lia.
Qed.

Lemma year_here_shape (prev : option char) (s : str) (cap : option str) :
  year_here prev s = Some cap ->
  exists a b c d rest,
    s = a :: b :: c :: d :: rest /\ cap = Some [a; b; c; d] /\
    year4 a b c d = true /\ word prev = false /\ word (head rest) = false.
Proof.
  unfold year_here. destruct s as [|a [|b [|c [|d rest]]]]; try done.
  destruct (year4 a b c d) eqn:H4; [| done].
  destruct (word prev) eqn:Hp; [done |].
  destruct (word (head rest)) eqn:Hr; [done |].
  cbn. intros [= <-]. by exists a, b, c, d, rest.
Qed.

(** A successful attempt at position [i] is a year standing there. *)
Lemma year_here_at (text : str) (i : nat) (y : Z) :
  is_year_at text i y <->
  exists a b c d,
    year_here (char_before None text i) (drop i text) = Some (Some [a; b; c; d])
    /\ y = year_value a b c d.
Proof.
  split.
  - intros (before & a & b & c & d & after & -> & <- & Ha & Hb & Hc & Hd
            & -> & Hy & Hpre & Hpost).
    exists a, b, c, d. split; [| done].
    rewrite char_before_last, drop_app_length. cbn [app year_here].
    assert (year4 a b c d = true) as -> by (apply year4_spec; tauto).
    by rewrite Hpre, Hpost.
  - intros (a & b & c & d & Hhere & ->).
    apply year_here_shape in Hhere
      as (a' & b' & c' & d' & rest & Hdrop & [= <- <- <- <-] & H4 & Hp & Hr).
    apply year4_spec in H4 as (Ha & Hb & Hc & Hd & Hy).
    assert (i <= length text) as Hlen.
    { destruct (decide (i <= length text)) as [|Hgt]; [done |].
      rewrite drop_ge in Hdrop by lia. done. }
    exists (take i text), a, b, c, d, rest.
    assert (text = take i text ++ [a; b; c; d] ++ rest) as Htext.
    { rewrite <- (take_drop i text) at 1. by rewrite Hdrop. }
    repeat split; try done.
    + rewrite length_take. lia.
    + assert (length (take i text) = i) as Hl by (rewrite length_take; lia).
      rewrite <- Hp. rewrite Htext at 2.
      rewrite <- (char_before_last (take i text) ([a; b; c; d] ++ rest)).
      by rewrite Hl.
Qed.

Lemma year_here_not_at (text : str) (i : nat) :
  year_here (char_before None text i) (drop i text) = None <->
  forall y, ~ is_year_at text i y.
Proof.
  split.
  - intros H y (a & b & c & d & Hhere & _)%year_here_at. congruence.
  - intros H.
    destruct (year_here (char_before None text i) (drop i text)) as [cap|] eqn:Hh;
      [| done].
    exfalso. pose proof Hh as Hshape.
    apply year_here_shape in Hshape as (a & b & c & d & rest & _ & -> & _).
    apply (H (year_value a b c d)). apply year_here_at. by exists a, b, c, d.
Qed.

(** What [_extract_year] computes, in terms of the attempts. *)
Lemma extract_year_cases (text : str) :
  (exists i a b c d,
     year_here (char_before None text i) (drop i text) = Some (Some [a; b; c; d])
     /\ (forall j, j < i ->
           year_here (char_before None text j) (drop j text) = None)
     /\ _extract_year unicode_alnum text = Ok (Some (year_value a b c d)))
  \/ ((forall i, year_here (char_before None text i) (drop i text) = None)
      /\ _extract_year unicode_alnum text = Ok None).
Proof.
  unfold _extract_year, Re.search.
  destruct (Re.search_from unicode_alnum year_pattern None text) as [cap|] eqn:Hs.
  - left. apply search_from_some in Hs as (i & Hi & Hmin).
    pose proof Hi as Hshape.
    apply year_here_shape in Hshape
      as (a & b & c & d & rest & _ & -> & H4 & _).
    apply year4_spec in H4 as (Ha & Hb & Hc & Hd & _).
    exists i, a, b, c, d. repeat split; try done.
    by rewrite (py_int_digits4 a b c d Ha Hb Hc Hd).
  - right. split; [| done]. by apply search_from_none.
Qed.

End WithUnicode.

End YearFacts.

(** ** The response cache *)

Module CacheFacts.
Import Cache.

Lemma cache_get_absent p cache_duration now query w :
  files (fs w) !! p = None ->
  cache_get p cache_duration now query w = (Ok None, w).
Proof.
  intros H. unfold cache_get, mbind, os_path_exists. rewrite H.
  by rewrite bool_decide_eq_false_2 by (intros [? ?]; done).
Qed.

Lemma cache_get_garbage p cache_duration now query w :
  files (fs w) !! p = Some Garbage ->
  cache_get p cache_duration now query w = (Raise UnpicklingError, w).
Proof.
  intros H. unfold cache_get, mbind, os_path_exists, pickle_load. rewrite H.
  rewrite bool_decide_eq_true_2 by eauto. by rewrite H.
Qed.

Lemma cache_get_unreadable p cache_duration now query w :
  files (fs w) !! p = Some Unreadable ->
  cache_get p cache_duration now query w = (Raise OSError, w).
Proof.
  intros H. unfold cache_get, mbind, os_path_exists, pickle_load. rewrite H.
  rewrite bool_decide_eq_true_2 by eauto. by rewrite H.
Qed.

Lemma cutoff_spec cache_duration now :
  (let! delta := timedelta cache_duration in datetime_sub now delta)
  = if decide (cutoff_ok cache_duration now)
    then Ok (now - timedelta_hours cache_duration)%Z
    else Raise OverflowError.
Proof.
  unfold timedelta, datetime_sub, is_datetime, cutoff_ok.
  destruct (-999999999 <=? cache_duration / 24)%Z eqn:H1;
    destruct (cache_duration / 24 <=? 999999999)%Z eqn:H2; cbn [andb bind];
    try (rewrite decide_False; [done | lia]).
  destruct (0 <=? now - timedelta_hours cache_duration)%Z eqn:H3;
    destruct (now - timedelta_hours cache_duration <=? datetime_max)%Z eqn:H4;
    cbn [andb]; case_decide; try done; lia.
Qed.

(** A time to live that does not reach back beyond the start of year 1
    gives a cut-off date. *)
Lemma cutoff_ok_within cache_duration now :
  (0 <= cache_duration)%Z ->
  (timedelta_hours cache_duration <= now <= datetime_max)%Z ->
  cutoff_ok cache_duration now.
Proof.
  unfold cutoff_ok, timedelta_hours, datetime_max. intros Hpos Hnow.
  assert (0 <= cache_duration / 24 <= cache_duration)%Z.
  { split; [apply Z.div_pos; lia |].
    apply Z.div_le_upper_bound; lia. }
  lia.
Qed.

(** The cut-off date one microsecond after the time of the write. *)
Lemma cutoff_ok_just_expired cache_duration now stored_at :
  (0 <= cache_duration)%Z ->
  is_datetime stored_at = true -> is_datetime now = true ->
  now = (stored_at + timedelta_hours cache_duration + 1)%Z ->
  cutoff_ok cache_duration now.
Proof.
  unfold is_datetime. rewrite !andb_true_iff, !Z.leb_le.
  intros Hpos Hs Hn ->. apply cutoff_ok_within; [done |].
  unfold timedelta_hours in *. lia.
Qed.

Lemma cache_get_fs p cache_duration now query w r w' :
  cache_get p cache_duration now query w = (r, w') -> fs w' = fs w.
Proof.
  unfold cache_get, mbind, os_path_exists, pickle_load, lift, print, ret.
  repeat case_match; by intros; simplify_eq/=.
Qed.

Lemma cache_get_entry p cache_duration now query w e :
  files (fs w) !! p = Some (Pickled e) ->
  cache_get p cache_duration now query w =
  if decide (cutoff_ok cache_duration now)
  then if decide (fresh cache_duration now e)
       then (Ok (Some (results e)), printed w (UsingCached query))
       else (Ok None, w)
  else (Raise OverflowError, w).
Proof.
  intros H. unfold cache_get, mbind, os_path_exists, pickle_load. rewrite H.
  rewrite bool_decide_eq_true_2 by eauto. rewrite H. unfold lift.
  rewrite cutoff_spec. case_decide; [| done]. unfold fresh.
  destruct (Z.gtb_spec (timestamp e) (now - timedelta_hours cache_duration));
    case_decide; try lia; reflexivity.
Qed.

Lemma cache_put_writable p now payload w :
  writable (fs w) p = true ->
  cache_put p now payload w =
  (Ok tt, stored w p {| timestamp := now; results := payload |}).
Proof. intros H. unfold cache_put, pickle_dump. by rewrite H. Qed.

Lemma cache_put_denied p now payload w :
  writable (fs w) p = false ->
  cache_put p now payload w = (Raise OSError, w).
Proof. intros H. unfold cache_put, pickle_dump. by rewrite H. Qed.

(** A fresh entry ends the request before the service is asked. *)
Lemma search_music_hit youtube now_read now_write query max_results
    cache_duration w e :
  files (fs w) !! cache_path query = Some (Pickled e) ->
  cutoff_ok cache_duration now_read ->
  fresh cache_duration now_read e ->
  search_music youtube now_read now_write query max_results cache_duration w
  = (Ok (results e), printed w (UsingCached query)).
Proof.
  intros H Hok Hfresh. unfold search_music, mbind at 1.
  rewrite (cache_get_entry _ _ _ _ _ e H).
  by rewrite !decide_True by done.
Qed.

(** An entry whose cut-off date cannot be computed ends the request with
    [OverflowError]. *)
Lemma search_music_overflow youtube now_read now_write query max_results
    cache_duration w e :
  files (fs w) !! cache_path query = Some (Pickled e) ->
  ~ cutoff_ok cache_duration now_read ->
  search_music youtube now_read now_write query max_results cache_duration w
  = (Raise OverflowError, w).
Proof.
  intros H Hbad. unfold search_music, mbind at 1.
  rewrite (cache_get_entry _ _ _ _ _ e H).
  by rewrite decide_False by done.
Qed.

Lemma cache_get_miss w p cache_duration now query :
  miss w p cache_duration now ->
  cache_get p cache_duration now query w = (Ok None, w).
Proof.
  intros [Habsent | (e & He & Hok & Hold)].
  - by apply cache_get_absent.
  - rewrite (cache_get_entry _ _ _ _ _ e He).
    by rewrite decide_True, decide_False.
Qed.

(** After a miss: the fetch, then the cache write, with [HttpError] turned
    into an empty answer and every other exception passed on. *)
Lemma search_music_miss youtube now_read now_write query max_results
    cache_duration w :
  miss w (cache_path query) cache_duration now_read ->
  search_music youtube now_read now_write query max_results cache_duration w
  = match fetch youtube query max_results w with
    | (Ok found, w') =>
        match cache_put (cache_path query) now_write found w' with
        | (Ok _, w'') => (Ok found, w'')
        | (Raise (HttpError status content), w'') =>
            (Ok [], printed w'' (HttpErrorOccurred status content))
        | (Raise e, w'') => (Raise e, w'')
        end
    | (Raise (HttpError status content), w') =>
        (Ok [], printed w' (HttpErrorOccurred status content))
    | (Raise e, w') => (Raise e, w')
    end.
Proof.
  intros Hmiss. unfold search_music, mbind at 1.
  rewrite (cache_get_miss _ _ _ _ _ Hmiss).
  unfold except_HttpError, fetch, mbind, lift.
  destruct (search_list youtube query max_results) as [found0|e0].
  - destruct (search_items youtube found0 [] w) as [[found|e] w'].
    + destruct (cache_put (cache_path query) now_write found w')
        as [[[]|e] w'']; [done |]. by destruct e.
    + by destruct e.
  - by destruct e0.
Qed.

(** [HttpError] does not leave a [try] whose handler prints and returns. *)
Lemma except_HttpError_caught {A} (body : M A) (fallback : A) w r w' :
  except_HttpError body
    (fun status content =>
       do _ <- print (HttpErrorOccurred status content) ;; ret fallback) w
  = (r, w') ->
  forall status content, r <> Raise (HttpError status content).
Proof.
  unfold except_HttpError. destruct (body w) as [[a|e] w1].
  - by intros [= <- <-].
  - destruct e; by intros [= <- <-].
Qed.

(** The details request prints at most; files are left alone and
    [HttpError] does not leave it. *)
Lemma get_video_details_spec youtube video_id w r w' :
  get_video_details youtube video_id w = (r, w') ->
  fs w' = fs w /\ forall status content, r <> Raise (HttpError status content).
Proof.
  intros H. split; [| by eapply except_HttpError_caught].
  unfold get_video_details, except_HttpError, mbind, lift, print, ret in H.
  repeat case_match; by simplify_eq/=.
Qed.

Lemma search_items_fs youtube found acc w r w' :
  search_items youtube found acc w = (r, w') -> fs w' = fs w.
Proof.
  revert acc w. induction found as [|item rest IH]; intros acc w.
  - by intros [= <- <-].
  - cbn [search_items]. unfold mbind.
    destruct (get_video_details youtube (si_videoId item) w) as [[d|e] w1] eqn:Hd.
    + intros H. apply IH in H. rewrite H.
      by apply (get_video_details_spec _ _ _ _ _ Hd).
    + intros [= <- <-]. by apply (get_video_details_spec _ _ _ _ _ Hd).
Qed.

Lemma fetch_fs youtube query max_results w r w' :
  fetch youtube query max_results w = (r, w') -> fs w' = fs w.
Proof.
  unfold fetch, mbind, lift.
  destruct (search_list youtube query max_results) as [found|e].
  - apply search_items_fs.
  - by intros [= <- <-].
Qed.

End CacheFacts.

(** ** The liked-videos loop *)

Module LikedFacts.
Import Liked.

(** One song is appended for every item that has a [videoId], in order;
    the other items leave no trace. *)
Lemma liked_items_spec youtube found videos w vs w' :
  liked_items youtube found videos w = (Ok vs, w') ->
  exists new, vs = videos ++ new /\ map id new = omap pi_videoId found.
Proof.
  revert videos w. induction found as [|item rest IH]; intros videos w.
  - intros [= <- <-]. exists []. by rewrite app_nil_r.
  - cbn [liked_items omap list_omap]. destruct (pi_videoId item) as [video_id|].
    + unfold mbind.
      destruct (get_video_details youtube video_id w) as [[d|e] w1]; [| done].
      intros H. apply IH in H as (new & -> & Hnew).
      eexists (_ :: new). split; [by rewrite <- app_assoc |].
      cbn. by rewrite Hnew.
    + apply IH.
Qed.

(** An item without a [videoId] is passed over: no request is made for
    it, nothing is printed, nothing is raised. *)
Lemma liked_items_removed youtube item rest videos w :
  pi_videoId item = None ->
  liked_items youtube (item :: rest) videos w
  = liked_items youtube rest videos w.
Proof. intros H. cbn [liked_items]. by rewrite H. Qed.

Lemma liked_items_existing youtube found videos w :
  liked_items youtube found videos w
  = liked_items youtube (existing found) videos w.
Proof.
  revert videos w. induction found as [|item rest IH]; intros videos w;
    [done |].
  unfold existing. rewrite filter_cons.
  destruct (pi_videoId item) as [video_id|] eqn:Hid.
  - rewrite decide_True by (by eexists). cbn [liked_items]. rewrite Hid.
    unfold mbind.
    destruct (get_video_details youtube video_id w) as [[d|e] w1]; [| done].
    apply IH.
  - rewrite decide_False by (by intros [? ?]).
    rewrite liked_items_removed by done. apply IH.
Qed.

Lemma liked_page_eq youtube liked_playlist_id max_results videos token w :
  liked_page youtube liked_playlist_id max_results videos token w =
  match playlistItems_list youtube liked_playlist_id
          (Nat.min 50 (max_results - length videos)) token with
  | Ok page =>
      match liked_items youtube (items page) videos w with
      | (Ok vs, w') => (Ok (vs, nextPageToken page), w')
      | (Raise e, w') => (Raise e, w')
      end
  | Raise e => (Raise e, w)
  end.
Proof.
  unfold liked_page, page_size, mbind, lift, ret.
  destruct (playlistItems_list _ _ _ _) as [page|e]; [| done].
  by destruct (liked_items youtube (items page) videos w) as [[vs|e] w'].
Qed.

Lemma liked_loop_done fuel youtube liked_playlist_id max_results videos token w :
  max_results <= length videos ->
  liked_loop fuel youtube liked_playlist_id max_results videos token w
  = Some (Ok videos, w).
Proof.
  intros H. destruct fuel; cbn [liked_loop];
    by rewrite (proj2 (Nat.ltb_ge _ _) H).
Qed.

Lemma liked_loop_step fuel youtube liked_playlist_id max_results videos token w
    vs tok w' :
  length videos < max_results ->
  liked_page youtube liked_playlist_id max_results videos token w
  = (Ok (vs, tok), w') ->
  liked_loop (S fuel) youtube liked_playlist_id max_results videos token w =
  if negb (truthy tok) || Nat.leb max_results (length vs)
  then Some (Ok vs, w')
  else liked_loop fuel youtube liked_playlist_id max_results vs tok w'.
Proof.
  intros Hlt Hpage. cbn [liked_loop].
  by rewrite (proj2 (Nat.ltb_lt _ _) Hlt), Hpage.
Qed.

Lemma liked_page_grows youtube liked_playlist_id max_results videos token w
    vs tok w' :
  liked_page youtube liked_playlist_id max_results videos token w
  = (Ok (vs, tok), w') ->
  exists page,
    playlistItems_list youtube liked_playlist_id
      (Nat.min 50 (max_results - length videos)) token = Ok page
    /\ tok = nextPageToken page
    /\ length vs = length videos + length (omap pi_videoId (items page)).
Proof.
  rewrite liked_page_eq.
  destruct (playlistItems_list _ _ _ _) as [page|e]; [| done].
  destruct (liked_items youtube (items page) videos w) as [[vs0|e] w0] eqn:Hitems;
    [| done].
  intros [= <- <- <-]. exists page. repeat split.
  apply liked_items_spec in Hitems as (new & -> & Hnew).
  rewrite length_app, <- Hnew. by rewrite length_map.
Qed.

Lemma length_omap_le {A B} (f : A -> option B) (l : list A) :
  length (omap f l) <= length l.
Proof.
  induction l as [|x l IH]; [done |]. cbn. destruct (f x); cbn; lia.
Qed.

(** With a service that honours the page size the loop never holds more
    than [max_results] videos. *)
Lemma liked_loop_bound youtube liked_playlist_id max_results :
  honours_page_size youtube ->
  forall fuel videos token w vs w',
    length videos <= max_results ->
    liked_loop fuel youtube liked_playlist_id max_results videos token w
    = Some (Ok vs, w') ->
    length vs <= max_results.
Proof.
  intros Hsize fuel. induction fuel as [|fuel IH]; intros videos token w vs w' Hle.
  - cbn [liked_loop]. destruct (Nat.ltb_spec (length videos) max_results); [done |].
    by intros [= <- <-].
  - cbn [liked_loop]. destruct (Nat.ltb_spec (length videos) max_results) as [Hlt|Hge].
    + destruct (liked_page youtube liked_playlist_id max_results videos token w)
        as [[[vs1 tok1]|e] w1] eqn:Hpage; [| done].
      apply liked_page_grows in Hpage as (page & Hreq & -> & Hlen).
      apply Hsize in Hreq.
      pose proof (length_omap_le pi_videoId (items page)) as Hom.
      assert (length vs1 <= max_results) as Hvs1 by lia.
      unfold stop_after_page. destruct (negb _ || _).
      * by intros [= <- <-].
      * by apply IH.
    + by intros [= <- <-].
Qed.

(** With a productive service [max_results] pages are enough for the loop
    to end. *)
Lemma liked_loop_ends youtube liked_playlist_id max_results :
  productive youtube ->
  forall fuel videos token w,
    max_results - length videos <= fuel ->
    liked_loop fuel youtube liked_playlist_id max_results videos token w <> None.
Proof.
  intros Hprod fuel. induction fuel as [|fuel IH]; intros videos token w Hfuel.
  - rewrite liked_loop_done by lia. done.
  - cbn [liked_loop]. destruct (Nat.ltb_spec (length videos) max_results) as [Hlt|Hge];
      [| done].
    destruct (liked_page youtube liked_playlist_id max_results videos token w)
      as [[[vs1 tok1]|e] w1] eqn:Hpage; [| done].
    apply liked_page_grows in Hpage as (page & Hreq & -> & Hlen).
    unfold stop_after_page.
    destruct (truthy (nextPageToken page)) eqn:Htok; cbn [negb orb]; [| done].
    destruct (Nat.leb_spec max_results (length vs1)); [done |].
    apply IH. specialize (Hprod _ _ _ _ Hreq Htok).
    destruct (omap pi_videoId (items page)); [done |]. cbn in Hlen. lia.
Qed.

End LikedFacts.

(** ** Durations *)

Module DurationFacts.
Import Duration.

Lemma contains_char (s : str) (c : char) :
  str_contains s [c] = true <-> c ∈ s.
Proof.
  rewrite str_contains_spec. unfold occurs. split.
  - intros (before & after & ->). apply elem_of_app. right. left.
  - intros (before & after & ->)%list_elem_of_split. by exists before, after.
Qed.

Lemma contains_char_false (s : str) (c : char) :
  str_contains s [c] = false <-> c ∉ s.
Proof.
  rewrite <- contains_char. destruct (str_contains s [c]); naive_solver.
Qed.

Lemma split_absent (sep : char) (s : str) :
  sep ∉ s -> split sep s = [s].
Proof.
  induction s as [|c s IH]; [done |]. intros Hnot.
  apply not_elem_of_cons in Hnot as [Hne Hnot]. cbn [split].
  rewrite (proj2 (N.eqb_neq c sep)) by congruence. by rewrite IH.
Qed.

Lemma split_at (sep : char) (pre post : str) :
  sep ∉ pre -> split sep (pre ++ sep :: post) = pre :: split sep post.
Proof.
  induction pre as [|c pre IH]; intros Hnot.
  - cbn [app split]. by rewrite N.eqb_refl.
  - apply not_elem_of_cons in Hnot as [Hne Hnot]. cbn [app split].
    rewrite (proj2 (N.eqb_neq c sep)) by congruence. by rewrite IH.
Qed.

Lemma digit_not_space (c : char) :
  Re.ascii_digit c = true -> is_space c = false.
Proof.
  unfold Re.ascii_digit, is_space. rewrite andb_true_iff, !N.leb_le.
  intros H. apply orb_false_iff. split.
  - apply andb_false_iff. right. apply N.leb_gt. lia.
  - apply N.eqb_neq. lia.
Qed.

Lemma lstrip_keeps (c : char) (s : str) :
  is_space c = false -> lstrip (c :: s) = c :: s.
Proof. intros H. cbn [lstrip]. by rewrite H. Qed.

Lemma strip_digits (ds : str) :
  Forall (fun c => Re.ascii_digit c = true) ds -> strip ds = ds.
Proof.
  intros Hall. unfold strip. destruct ds as [|c ds]; [done |].
  rewrite lstrip_keeps by (apply digit_not_space; by inversion Hall).
  assert (Hrev : Forall (fun c => Re.ascii_digit c = true) (reverse (c :: ds)))
    by by apply Forall_reverse.
  destruct (reverse (c :: ds)) as [|x xs] eqn:Hr.
  - apply (f_equal length) in Hr. rewrite length_reverse in Hr. done.
  - rewrite lstrip_keeps by (apply digit_not_space; by inversion Hrev).
    by rewrite <- Hr, reverse_involutive.
Qed.

Lemma int_digits_value (ds : str) (acc : Z) :
  Forall (fun c => Re.ascii_digit c = true) ds ->
  int_digits ds acc true
  = Some (foldl (fun acc c => (10 * acc + (Z.of_N c - 48))%Z) acc ds).
Proof.
  revert acc. induction ds as [|c ds IH]; intros acc Hall; [done |].
  inversion Hall as [|? ? Hc Hds]; subst. cbn [int_digits foldl].
  unfold digit_val. rewrite Hc. by apply IH.
Qed.

(** [int] of a run of digits is the number it spells. *)
Lemma py_int_digits (ds : str) :
  is_digits ds -> py_int ds = Ok (decimal_value ds).
Proof.
  intros [Hne Hall]. unfold py_int. rewrite (strip_digits ds Hall).
  destruct ds as [|c ds]; [done |].
  inversion Hall as [|? ? Hc Hds]; subst.
  pose proof Hc as Hrange. unfold Re.ascii_digit in Hrange.
  apply andb_true_iff in Hrange as [Hlo Hhi]. apply N.leb_le in Hlo, Hhi.
  assert (c = 48 \/ c = 49 \/ c = 50 \/ c = 51 \/ c = 52 \/ c = 53 \/
          c = 54 \/ c = 55 \/ c = 56 \/ c = 57)%N as Hcases by lia.
  clear Hlo Hhi.
  unfold decimal_value. cbn [foldl].
  repeat (destruct Hcases as [-> | Hcases]); try subst c;
    cbn -[int_digits Z.mul Z.add Z.sub Z.of_N foldl];
    cbn [int_digits]; unfold digit_val; rewrite Hc;
    by rewrite (int_digits_value ds _ Hds).
Qed.

Lemma lstrip_elem (c : char) (s : str) :
  c ∈ s -> is_space c = false -> c ∈ lstrip s.
Proof.
  intros Hin Hc. induction s as [|x s IH]; [done |]. cbn [lstrip].
  destruct (is_space x) eqn:Hx; [| done].
  apply elem_of_cons in Hin as [-> | Hin]; [congruence | by apply IH].
Qed.

Lemma strip_elem (c : char) (s : str) :
  c ∈ s -> is_space c = false -> c ∈ strip s.
Proof.
  intros Hin Hc. unfold strip. apply elem_of_reverse.
  apply lstrip_elem; [| done]. apply elem_of_reverse. by apply lstrip_elem.
Qed.

Lemma int_digits_rejects (c : char) (l : str) :
  c ∈ l -> not_numeric c ->
  forall acc after_digit, int_digits l acc after_digit = None.
Proof.
  intros Hin (Hdigit & _ & Hunder & _).
  induction l as [|x l IH]; [by apply elem_of_nil in Hin |].
  intros acc after_digit. cbn [int_digits].
  apply elem_of_cons in Hin as [<- | Hin].
  - unfold digit_val. rewrite Hdigit.
    by rewrite (proj2 (N.eqb_neq c 95)) by done.
  - destruct (digit_val x); [by apply IH |].
    destruct (N.eqb x 95 && after_digit); [| done].
    destruct l; [done | by apply IH].
Qed.

(** [int] raises as soon as the text holds a character that is neither a
    digit, a sign, an underscore nor white space. *)
Lemma py_int_rejects (c : char) (s : str) :
  c ∈ s -> not_numeric c -> py_int s = Raise ValueError.
Proof.
  intros Hin Hc. pose proof Hc as (_ & Hspace & _ & Hplus & Hminus).
  pose proof (strip_elem c s Hin Hspace) as Hbody.
  unfold py_int. destruct (strip s) as [|x d]; [done |].
  assert (Hd : x <> c -> c ∈ d).
  { intros Hne. apply elem_of_cons in Hbody as [-> | H]; done. }
  assert (Hall : int_digits (x :: d) 0 false = None)
    by by apply (int_digits_rejects c).
  assert (Htail : x <> c -> int_digits d 0 false = None)
    by (intros Hne; apply (int_digits_rejects c); auto).
  destruct x as [|p]; [by rewrite Hall |].
  do 6 (destruct p as [p|p|]; try by rewrite Hall);
    rewrite Htail; done.
Qed.

(** One stage of [_parse_duration] when its designator is there... *)
Lemma stage_present (sep : char) (mult seconds : Z) (ds rest : str) :
  is_digits ds -> sep ∉ ds -> sep ∉ rest ->
  (if str_contains (ds ++ sep :: rest) [sep]
   then let! pieces := unpack2 (split sep (ds ++ sep :: rest)) in
        let! x := py_int (fst pieces) in
        Ok ((seconds + x * mult)%Z, snd pieces)
   else Ok (seconds, ds ++ sep :: rest))
  = Ok ((seconds + decimal_value ds * mult)%Z, rest).
Proof.
  intros Hds Hpre Hpost.
  rewrite (proj2 (contains_char _ sep))
    by (apply elem_of_app; right; left).
  rewrite split_at, split_absent by done. cbn [unpack2 bind fst snd].
  by rewrite py_int_digits.
Qed.

(** ... and when it is not. *)
Lemma stage_absent {A} (sep : char) (s : str) (a b : A) :
  sep ∉ s -> (if str_contains s [sep] then a else b) = b.
Proof. intros H. by rewrite (proj2 (contains_char_false s sep)). Qed.

Lemma digits_without (ds : str) (c : char) :
  Forall (fun c => Re.ascii_digit c = true) ds ->
  Re.ascii_digit c = false -> c ∉ ds.
Proof.
  intros Hall Hc Hin. rewrite Forall_forall in Hall.
  specialize (Hall c Hin). congruence.
Qed.

Lemma component_without (field : option str) (designator c : char) :
  field_ok field -> Re.ascii_digit c = false -> c <> designator ->
  c ∉ component field designator.
Proof.
  intros Hok Hc Hne. destruct field as [ds|]; cbn [component].
  - destruct Hok as [_ Hall]. intros [Hin | Hin%list_elem_of_singleton]%elem_of_app.
    + by apply (digits_without ds c Hall Hc).
    + done.
  - apply not_elem_of_nil.
Qed.

Lemma stage_component (sep : char) (mult seconds : Z) (field : option str)
    (rest : str) :
  field_ok field -> Re.ascii_digit sep = false -> sep ∉ rest ->
  (if str_contains (component field sep ++ rest) [sep]
   then let! pieces := unpack2 (split sep (component field sep ++ rest)) in
        let! x := py_int (fst pieces) in
        Ok ((seconds + x * mult)%Z, snd pieces)
   else Ok (seconds, component field sep ++ rest))
  = Ok ((seconds + field_value field * mult)%Z, rest).
Proof.
  intros Hok Hsep Hrest. destruct field as [ds|]; cbn [component field_value].
  - rewrite <- app_assoc. cbn [app].
    apply stage_present; [done | | done].
    destruct Hok as [_ Hall]. by apply digits_without.
  - cbn [app]. rewrite stage_absent by done. f_equal. f_equal. lia.
Qed.

Lemma last_stage (seconds : Z) (field : option str) :
  field_ok field ->
  (if str_contains (component field 83) [83%N]
   then let! s := py_int (default [] (head (split 83 (component field 83)))) in
        Ok (seconds + s)%Z
   else Ok seconds)
  = Ok (seconds + field_value field)%Z.
Proof.
  intros Hok. destruct field as [ds|]; cbn [component field_value].
  - rewrite (proj2 (contains_char _ 83%N))
      by (apply elem_of_app; right; left).
    rewrite split_at by (destruct Hok as [_ Hall]; by apply digits_without).
    cbn [head default]. rewrite py_int_digits by done. done.
  - rewrite stage_absent by apply not_elem_of_nil. f_equal. lia.
Qed.

(** A stage whose designator is there but whose text in front of it holds
    a character that is no part of a number. *)
Lemma stage_polluted (sep bad : char) (mult seconds : Z) (pre rest : str) :
  sep ∉ pre -> bad ∈ pre -> not_numeric bad ->
  (if str_contains (pre ++ sep :: rest) [sep]
   then let! pieces := unpack2 (split sep (pre ++ sep :: rest)) in
        let! x := py_int (fst pieces) in
        Ok ((seconds + x * mult)%Z, snd pieces)
   else Ok (seconds, pre ++ sep :: rest))
  = Raise ValueError.
Proof.
  intros Hpre Hbad Hnot.
  rewrite (proj2 (contains_char _ sep))
    by (apply elem_of_app; right; left).
  rewrite split_at by done.
  destruct (split sep rest) as [|piece [|piece' pieces]]; cbn [unpack2 bind];
    try done.
  cbn [fst]. by rewrite (py_int_rejects bad pre).
Qed.

Lemma last_stage_polluted (bad : char) (seconds : Z) (pre rest : str) :
  83%N ∉ pre -> bad ∈ pre -> not_numeric bad ->
  (if str_contains (pre ++ 83%N :: rest) [83%N]
   then let! s := py_int (default [] (head (split 83 (pre ++ 83%N :: rest)))) in
        Ok (seconds + s)%Z
   else Ok seconds)
  = Raise ValueError.
Proof.
  intros Hpre Hbad Hnot.
  rewrite (proj2 (contains_char _ 83%N))
    by (apply elem_of_app; right; left).
  rewrite split_at by done.
  change (default [] (head (pre :: split 83 rest))) with pre.
  by rewrite (py_int_rejects bad pre).
Qed.

(** The three stages of [_parse_duration] on the time part of a
    duration, once the first two characters are gone. *)
Ltac parse_stages :=
  change (lit "H") with [72%N]; change (lit "M") with [77%N];
  change (lit "S") with [83%N]; cbv zeta; unfold Duration.iso_time;
  rewrite stage_component;
    [| done | done
     | intros [Hin | Hin]%elem_of_app; revert Hin; by apply component_without];
  cbn [bind fst snd];
  rewrite stage_component; [| done | done | by apply component_without];
  cbn [bind fst snd];
  rewrite last_stage by done.

End DurationFacts.

(** ** Search hits and playlist entries *)

Module HitsFacts.
Import Hits.

Lemma get_video_details_http youtube video_id w status content :
  videos_list youtube video_id = Raise (HttpError status content) ->
  get_video_details youtube video_id w
  = (Ok None, Cache.printed w (HttpErrorOccurred status content)).
Proof.
  intros H. unfold get_video_details, except_HttpError, mbind, lift.
  by rewrite H.
Qed.

Lemma get_video_details_unknown youtube video_id w :
  videos_list youtube video_id = Ok [] ->
  get_video_details youtube video_id w = (Ok None, w).
Proof.
  intros H. unfold get_video_details, except_HttpError, mbind, lift.
  by rewrite H.
Qed.

(** One song per hit, in order, with the listed fields of the hit. *)
Lemma search_items_spec youtube found acc w vs w' :
  search_items youtube found acc w = (Ok vs, w') ->
  exists new, vs = acc ++ new /\ map listed new = map hit_listed found.
Proof.
  revert acc w. induction found as [|item rest IH]; intros acc w.
  - intros [= <- <-]. exists []. by rewrite app_nil_r.
  - cbn [search_items]. unfold mbind.
    destruct (get_video_details youtube (si_videoId item) w) as [[d|e] w1];
      [| done].
    intros H. apply IH in H as (new & -> & Hnew).
    eexists (_ :: new). split; [by rewrite <- app_assoc |].
    cbn [map]. by rewrite Hnew.
Qed.

Lemma search_items_bare youtube status content found acc w :
  (forall video_id,
     videos_list youtube video_id = Raise (HttpError status content)) ->
  search_items youtube found acc w
  = (Ok (acc ++ map bare_song found),
     printed_times w (length found) (HttpErrorOccurred status content)).
Proof.
  intros Hfail. revert acc w. induction found as [|item rest IH]; intros acc w.
  - cbn. unfold ret, printed_times. rewrite !app_nil_r. by destruct w.
  - cbn [search_items]. unfold mbind.
    rewrite (get_video_details_http _ _ _ _ _ (Hfail _)).
    rewrite IH. cbn [map length replicate]. unfold printed_times, Cache.printed.
    cbn [fs stdout]. rewrite <- !app_assoc. done.
Qed.

Lemma playlist_entries_ok found videos :
  Forall (fun item => is_Some (pi_videoId item)) found ->
  exists new,
    playlist_entries found videos = Ok (videos ++ new)
    /\ Forall2 entry_of found new.
Proof.
  intros Hall. revert videos. induction Hall as [|item rest [vid Hvid] _ IH];
    intros videos.
  - exists []. by rewrite app_nil_r.
  - cbn [playlist_entries]. rewrite Hvid.
    destruct (IH (videos ++ [ {| pe_id := vid; pe_title := pi_title item;
                                 pe_position := pi_position item;
                                 pe_published_at := pi_publishedAt item;
                                 pe_channel := pi_channelTitle item |} ]))
      as (new & -> & Hnew).
    eexists (_ :: new). split; [by rewrite <- app_assoc |].
    constructor; [| done]. by repeat split.
Qed.

Lemma playlist_entries_missing found videos :
  Exists (fun item => pi_videoId item = None) found ->
  playlist_entries found videos = Raise KeyError.
Proof.
  intros Hex. revert videos. induction Hex as [item rest Hnone | item rest _ IH];
    intros videos; cbn [playlist_entries].
  - by rewrite Hnone.
  - destruct (pi_videoId item); [apply IH | done].
Qed.

Lemma liked_items_from youtube found videos w vs w' :
  liked_items youtube found videos w = (Ok vs, w') ->
  exists new, vs = videos ++ new /\ Forall (liked_from found) new.
Proof.
  revert videos w. induction found as [|item rest IH]; intros videos w.
  - intros [= <- <-]. exists []. by rewrite app_nil_r.
  - cbn [liked_items]. destruct (pi_videoId item) as [video_id|] eqn:Hid.
    + unfold mbind.
      destruct (get_video_details youtube video_id w) as [[d|e] w1]; [| done].
      intros H. apply IH in H as (new & -> & Hnew).
      eexists (_ :: new). split; [by rewrite <- app_assoc |].
      constructor.
      * exists item. repeat split; try done. left.
      * eapply Forall_impl; [exact Hnew |].
        intros song (it & Hin & Hrest). exists it. split; [by right | done].
    + intros H. apply IH in H as (new & -> & Hnew). exists new.
      split; [done |]. eapply Forall_impl; [exact Hnew |].
      intros song (it & Hin & Hrest). exists it. split; [by right | done].
Qed.

Lemma cache_path_eq (query : str) :
  cache_path query
  = lit "./cache/music_search_" ++ replace_space query ++ lit ".pkl".
Proof. reflexivity. Qed.

Lemma replace_space_eq (q1 q2 : str) :
  replace_space q1 = replace_space q2 <-> same_up_to_blanks q1 q2.
Proof.
  unfold same_up_to_blanks, replace_space. revert q2.
  induction q1 as [|a q1 IH]; intros [|b q2]; cbn [map].
  - split; [constructor | done].
  - split; [done | intros H; inversion H].
  - split; [done | intros H; inversion H].
  - split.
    + intros [= Hab Hrest]. constructor; [| by apply IH].
      destruct (N.eqb_spec a 32), (N.eqb_spec b 32); subst; auto.
    + intros H. inversion H as [|? ? ? ? Hab Hrest]; subst.
      f_equal; [| by apply IH].
      destruct Hab as [-> | [[-> | ->] [-> | ->]]]; done.
Qed.

Lemma search_items_no_http youtube found acc w r w' :
  search_items youtube found acc w = (r, w') ->
  forall status content, r <> Raise (HttpError status content).
Proof.
  revert acc w. induction found as [|item rest IH]; intros acc w.
  - by intros [= <- <-].
  - cbn [search_items]. unfold mbind.
    destruct (get_video_details youtube (si_videoId item) w) as [[d|e] w1] eqn:Hd.
    + apply IH.
    + intros [= <- <-] status content [= ->].
      by apply (proj2 (CacheFacts.get_video_details_spec _ _ _ _ _ Hd)
                  status content).
Qed.

End HitsFacts.

(** ** Categorized songs *)

Module FramesFacts.
Import Frames.

Lemma dict_set_enriched (song : Song) (genre mood : str) (year : option Z) :
  dict_set (lit "release_year") (opt_cell VInt year)
    (dict_set (lit "mood") (VStr mood)
       (dict_set (lit "genre") (VStr genre) (song_dict song)))
  = enriched song genre mood year.
Proof. vm_compute. reflexivity. Qed.

Lemma enriched_keys (song : Song) (genre mood : str) (year : option Z) :
  map fst (enriched song genre mood year) = column_names.
Proof. reflexivity. Qed.

Lemma categorize_song_ok lower unicode_alnum song :
  categorize_song lower unicode_alnum song
  = Ok (enriched song (genre_of lower song) (mood_of lower song)
          (year_of lower unicode_alnum song)).
Proof.
  unfold categorize_song, year_of. cbv zeta.
  destruct (YearFacts.extract_year_cases unicode_alnum (song_text lower song))
    as [(i & a & b & c & d & _ & _ & ->) | [_ ->]]; cbn [bind];
    by rewrite dict_set_enriched.
Qed.

Lemma categorize_loop_ok lower unicode_alnum songs acc :
  categorize_loop lower unicode_alnum songs acc
  = Ok (acc ++ map (fun song =>
                      enriched song (genre_of lower song) (mood_of lower song)
                        (year_of lower unicode_alnum song)) songs).
Proof.
  revert acc. induction songs as [|song rest IH]; intros acc.
  - cbn. by rewrite app_nil_r.
  - cbn [categorize_loop map]. rewrite categorize_song_ok. cbn [bind].
    rewrite IH. by rewrite <- app_assoc.
Qed.

Lemma first_seen_fresh (seen keys : list str) :
  NoDup (seen ++ keys) ->
  foldl (fun seen k => if decide (k ∈ seen) then seen else seen ++ [k])
    seen keys = seen ++ keys.
Proof.
  revert seen. induction keys as [|k keys IH]; intros seen Hnd.
  - by rewrite app_nil_r.
  - cbn [foldl]. rewrite decide_False.
    + rewrite IH; rewrite <- app_assoc; done.
    + apply NoDup_app in Hnd as (_ & Hdisj & _). intros Hin.
      apply (Hdisj k Hin). left.
Qed.

Lemma first_seen_known (seen keys : list str) :
  (forall k, k ∈ keys -> k ∈ seen) ->
  foldl (fun seen k => if decide (k ∈ seen) then seen else seen ++ [k])
    seen keys = seen.
Proof.
  induction keys as [|k keys IH]; intros Hall; [done |].
  cbn [foldl]. rewrite decide_True by (apply Hall; left).
  apply IH. intros k' Hk'. apply Hall. by right.
Qed.

(** Records that all have the keys [keys] give the columns [keys]. *)
Lemma first_seen_same (keys : list str) (records : list Dict) :
  NoDup keys -> records <> [] ->
  Forall (fun record => map fst record = keys) records ->
  first_seen (concat (map (map fst) records)) = keys.
Proof.
  intros Hnd Hne Hall. destruct records as [|record rest]; [done |].
  inversion Hall as [|? ? Hrecord Hrest]; subst.
  unfold first_seen. cbn [map concat]. rewrite foldl_app.
  rewrite (first_seen_fresh [] (map fst record)) by done. cbn [app].
  apply first_seen_known. intros k Hk.
  apply list_elem_of_In, in_concat in Hk as (ks & Hks & Hk).
  apply list_elem_of_In, list_elem_of_fmap in Hks as (record' & -> & Hin).
  apply list_elem_of_In in Hk.
  rewrite Forall_forall in Hrest. by rewrite (Hrest record' Hin) in Hk.
Qed.

Lemma column_names_NoDup : NoDup column_names.
Proof. refine (bool_decide_unpack (NoDup column_names) _). vm_compute. exact I. Qed.

Lemma row_cells lower unicode_alnum i song :
  cell (lit "title") (row_of lower unicode_alnum i song) = VStr (title song)
  /\ cell (lit "tags") (row_of lower unicode_alnum i song) = VTags (tags song)
  /\ cell (lit "genre") (row_of lower unicode_alnum i song)
     = VStr (genre_of lower song)
  /\ cell (lit "mood") (row_of lower unicode_alnum i song)
     = VStr (mood_of lower song)
  /\ cell (lit "release_year") (row_of lower unicode_alnum i song)
     = opt_cell VInt (year_of lower unicode_alnum song).
Proof.
  unfold row_of, cell. cbn [cells].
  generalize (genre_of lower song), (mood_of lower song),
    (year_of lower unicode_alnum song). intros genre mood year.
  repeat split; vm_compute; reflexivity.
Qed.

Lemma categorize_songs_frame lower unicode_alnum songs :
  categorize_songs lower unicode_alnum songs
  = Ok {| columns := match songs with [] => [] | _ :: _ => column_names end;
          rows := imap (row_of lower unicode_alnum) songs |}.
Proof.
  unfold categorize_songs. rewrite categorize_loop_ok. cbn [bind app].
  unfold DataFrame_of_records. f_equal. f_equal.
  - destruct songs as [|song rest]; [done |].
    apply first_seen_same.
    + apply column_names_NoDup.
    + done.
    + apply Forall_forall. intros record Hin.
      apply list_elem_of_fmap in Hin as (song' & -> & _). apply enriched_keys.
  - rewrite imap_fmap. done.
Qed.

End FramesFacts.

(** * The claims *)

(** C7. [_extract_year] returns the number spelt by the leftmost four-digit
    year of 1900..1999 or 2000..2029 that stands between word boundaries,
    and [None] exactly when the text has no such year; later years are
    ignored, and a year is never cut out of a longer run of digits: the
    characters next to a recognised year are not digits. *)
Theorem extract_year_first_match (unicode_alnum : char -> bool) (text : str) :
  (forall y,
     _extract_year unicode_alnum text = Ok (Some y) <->
     exists i,
       Year.is_year_at unicode_alnum text i y /\
       forall j y', j < i -> ~ Year.is_year_at unicode_alnum text j y')
  /\ (_extract_year unicode_alnum text = Ok None <->
      forall i y, ~ Year.is_year_at unicode_alnum text i y)
  /\ (forall i y,
        Year.is_year_at unicode_alnum text i y ->
        (forall c, text !! (i + 4) = Some c -> Re.ascii_digit c = false) /\
        (forall j c, i = S j -> text !! j = Some c -> Re.ascii_digit c = false)).
Proof.
  split; [| split].
  - intros y.
    destruct (YearFacts.extract_year_cases unicode_alnum text)
      as [(i & a & b & c & d & Hhere & Hmin & ->) | [Hnone ->]].
    + split.
      * intros [= <-]. exists i. split.
        -- apply YearFacts.year_here_at. by exists a, b, c, d.
        -- intros j y' Hj. apply YearFacts.year_here_not_at. by apply Hmin.
      * intros (i' & Hat & Hmin').
        assert (i' = i) as ->.
        { destruct (Nat.lt_total i' i) as [Hlt | [Heq | Hgt]]; [| done |].
          - exfalso. revert Hat. apply YearFacts.year_here_not_at. by apply Hmin.
          - exfalso. apply (Hmin' i (Year.year_value a b c d) Hgt).
            apply YearFacts.year_here_at. by exists a, b, c, d. }
        apply YearFacts.year_here_at in Hat as (a' & b' & c' & d' & Hhere' & ->).
        rewrite Hhere in Hhere'. by injection Hhere' as <- <- <- <-.
    + split; [done |]. intros (i & Hat & _). exfalso.
      revert Hat. apply YearFacts.year_here_not_at. apply Hnone.
  - destruct (YearFacts.extract_year_cases unicode_alnum text)
      as [(i & a & b & c & d & Hhere & Hmin & ->) | [Hnone ->]].
    + split; [done |]. intros Hno. exfalso.
      apply (Hno i (Year.year_value a b c d)).
      apply YearFacts.year_here_at. by exists a, b, c, d.
    + split; [| done]. intros _ i y. apply YearFacts.year_here_not_at. apply Hnone.
  - intros i y (before & a & b & c & d & after & -> & <- & Ha & Hb & Hc & Hd
                & -> & Hy & Hpre & Hpost).
    split.
    + intros x Hx.
      rewrite lookup_app_r in Hx by lia.
      replace (length before + 4 - length before) with 4 in Hx by lia.
      destruct after as [|x' after]; [done |]. cbn in Hx. injection Hx as ->.
      cbn in Hpost. destruct (Re.ascii_digit x) eqn:Hdx; [| done].
      by rewrite (YearFacts.word_digit unicode_alnum x Hdx) in Hpost.
    + intros j x Hj Hx.
      rewrite lookup_app_l in Hx by lia.
      rewrite last_lookup, Hj in Hpre. cbn [pred] in Hpre.
      rewrite Hx in Hpre. cbn in Hpre.
      destruct (Re.ascii_digit x) eqn:Hdx; [| done].
      by rewrite (YearFacts.word_digit unicode_alnum x Hdx) in Hpre.
Qed.

(** C1. [_detect_genre] walks the genre table in insertion order and the
    keywords of a category in listed order; it returns the first category
    one of whose keywords is a substring of the text or an element of the
    tag list, whatever later categories would match (the return is
    triggered by that category's first such keyword). *)
Theorem detect_genre_first_match (text : str) (tags : list str)
    (earlier : CategoryTable) (genre : str) (keywords : list str)
    (later : CategoryTable) :
  genre_keywords = earlier ++ (genre, keywords) :: later ->
  Classifier.silent earlier text tags ->
  (exists keyword, keyword ∈ keywords /\ Classifier.found text tags keyword) ->
  _detect_genre text tags = genre /\
  exists before keyword after,
    keywords = before ++ keyword :: after /\
    Classifier.found text tags keyword /\
    (forall k, k ∈ before -> ~ Classifier.found text tags k) /\
    for_categories genre_keywords text tags = Some (genre, keyword).
Proof.
  intros Htable Hsilent Hfound.
  destruct (ClassifierFacts.for_categories_first genre_keywords earlier genre
              keywords later text tags Htable Hsilent Hfound)
    as (keyword & Hcat & Hkw).
  split.
  - unfold _detect_genre. by rewrite Hcat.
  - apply ClassifierFacts.for_keywords_some in Hkw
      as (before & kw & after & -> & [= <-] & Hf & Hno).
    by exists before, keyword, after.
Qed.

(** Text with a 'rock' keyword and a 'pop' keyword yields 'pop'; the tag
    list alone can decide as well. *)
Lemma detect_genre_first_match_witness :
  _detect_genre (lit "hard rock meets pop") [] = lit "pop" /\
  _detect_genre (lit "live at the arena") [lit "indie"] = lit "rock".
Proof.
  split.
  - refine (proj1 (detect_genre_first_match (lit "hard rock meets pop") []
             [] (lit "pop") [lit "pop"; lit "dance pop"; lit "electropop"]
             (tail genre_keywords) eq_refl _ _)).
    + intros c ks k H. by apply elem_of_nil in H.
    + exists (lit "pop"). split; [left |].
      apply ClassifierFacts.keyword_hits_spec. vm_compute. reflexivity.
  - refine (proj1 (detect_genre_first_match (lit "live at the arena")
             [lit "indie"] (take 1 genre_keywords) (lit "rock")
             [lit "rock"; lit "alternative"; lit "indie"; lit "punk";
              lit "metal"; lit "grunge"]
             (drop 2 genre_keywords) eq_refl _ _)).
    + apply ClassifierFacts.for_categories_none. vm_compute. reflexivity.
    + exists (lit "indie"). split.
      * apply list_elem_of_In. vm_compute. tauto.
      * apply ClassifierFacts.keyword_hits_spec. vm_compute. reflexivity.
Defined.

(** C9. When no keyword of the genre table is found [_detect_genre]
    returns 'unknown', when no keyword of the mood table is found
    [_detect_mood] returns 'other'; the three classifiers always return:
    a category of the table or the default, and a year of 1900..2029 or
    [None], never an exception. *)
Theorem classification_defaults (unicode_alnum : char -> bool)
    (text : str) (tags : list str) :
  (Classifier.silent genre_keywords text tags ->
   _detect_genre text tags = lit "unknown")
  /\ (Classifier.silent mood_keywords text tags ->
      _detect_mood text tags = lit "other")
  /\ _detect_genre text tags ∈ lit "unknown" :: map fst genre_keywords
  /\ _detect_mood text tags ∈ lit "other" :: map fst mood_keywords
  /\ (exists year,
        _extract_year unicode_alnum text = Ok year /\
        match year with
        | Some y => (1900 <= y <= 2029)%Z
        | None => True
        end).
Proof.
  assert (Hin : forall table text tags hit,
            for_categories table text tags = Some hit ->
            fst hit ∈ map fst table).
  { intros table tx tg hit. induction table as [|[c ks] table IH]; [done |].
    cbn [for_categories].
    destruct (for_keywords c ks tx tg) as [hit'|] eqn:Hks.
    - intros [= <-].
      apply ClassifierFacts.for_keywords_some in Hks as (? & ? & ? & _ & -> & _).
      left.
    - intros H. right. by apply IH. }
  repeat split.
  - intros H%ClassifierFacts.for_categories_none. unfold _detect_genre. by rewrite H.
  - intros H%ClassifierFacts.for_categories_none. unfold _detect_mood. by rewrite H.
  - unfold _detect_genre.
    destruct (for_categories genre_keywords text tags) as [[g k]|] eqn:H.
    + right. apply (Hin _ _ _ _ H).
    + left.
  - unfold _detect_mood.
    destruct (for_categories mood_keywords text tags) as [[g k]|] eqn:H.
    + right. apply (Hin _ _ _ _ H).
    + left.
  - destruct (YearFacts.extract_year_cases unicode_alnum text)
      as [(i & a & b & c & d & Hhere & _ & ->) | [_ ->]].
    + eexists. split; [done |].
      apply YearFacts.year_here_shape in Hhere as (? & ? & ? & ? & ? & _ & [= <- <- <- <-] & H4 & _).
      apply YearFacts.year4_spec in H4; [lia | exact unicode_alnum].
    + by exists None.
Qed.

Lemma classification_defaults_witness :
  _detect_genre (lit "field recording 1987") [] = lit "unknown" /\
  _detect_mood (lit "field recording 1987") [] = lit "other".
Proof.
  pose proof (classification_defaults (fun _ => false)
                (lit "field recording 1987") []) as (Hg & Hm & _).
  split.
  - apply Hg. apply ClassifierFacts.for_categories_none. vm_compute. reflexivity.
  - apply Hm. apply ClassifierFacts.for_categories_none. vm_compute. reflexivity.
Defined.

(** C2, as the code has it.  The cache read returns the stored payload
    exactly when the file holds an entry, the cut-off date
    [now - timedelta(hours)] is a date [datetime] can hold, and the age
    [now - timestamp] of the entry is strictly below the time to live.
    It never changes the storage, so an expired entry stays where it is
    and reads as a miss, in particular one time unit after the time to
    live has passed.  When the cut-off date cannot be computed the read
    of an entry raises [OverflowError], whatever the age of the entry. *)
Theorem cache_get_fresh_only (p : str) (cache_duration : Z) (now : datetime)
    (query : str) (w : World) :
  (forall payload w',
     cache_get p cache_duration now query w = (Ok (Some payload), w') <->
     exists e,
       files (fs w) !! p = Some (Pickled e) /\
       results e = payload /\
       Cache.cutoff_ok cache_duration now /\
       (now - timestamp e < timedelta_hours cache_duration)%Z /\
       w' = Cache.printed w (UsingCached query))
  /\ (forall r w',
        cache_get p cache_duration now query w = (r, w') -> fs w' = fs w)
  /\ (forall e,
        files (fs w) !! p = Some (Pickled e) ->
        Cache.cutoff_ok cache_duration now ->
        (timedelta_hours cache_duration <= now - timestamp e)%Z ->
        cache_get p cache_duration now query w = (Ok None, w))
  /\ (forall e,
        files (fs w) !! p = Some (Pickled e) ->
        (0 <= cache_duration)%Z ->
        is_datetime (timestamp e) = true -> is_datetime now = true ->
        now = (timestamp e + timedelta_hours cache_duration + 1)%Z ->
        cache_get p cache_duration now query w = (Ok None, w))
  /\ (forall e,
        files (fs w) !! p = Some (Pickled e) ->
        ~ Cache.cutoff_ok cache_duration now ->
        cache_get p cache_duration now query w = (Raise OverflowError, w)).
Proof.
  assert (Hexpired : forall e,
    files (fs w) !! p = Some (Pickled e) ->
    Cache.cutoff_ok cache_duration now ->
    (timedelta_hours cache_duration <= now - timestamp e)%Z ->
    cache_get p cache_duration now query w = (Ok None, w)).
  { intros e He Hok Hold. rewrite (CacheFacts.cache_get_entry _ _ _ _ _ e He).
    rewrite decide_True by done.
    rewrite decide_False; [done |]. unfold Cache.fresh. lia. }
  refine (conj _ (conj _ (conj Hexpired (conj _ _)))).
  - intros payload w'. split.
    + destruct (files (fs w) !! p) as [[e| |]|] eqn:Hfile.
      * rewrite (CacheFacts.cache_get_entry _ _ _ _ _ e Hfile).
        case_decide as Hok; [| done].
        case_decide as Hfresh; intros [= <- <-]. by exists e.
      * by rewrite (CacheFacts.cache_get_garbage _ _ _ _ _ Hfile).
      * by rewrite (CacheFacts.cache_get_unreadable _ _ _ _ _ Hfile).
      * by rewrite (CacheFacts.cache_get_absent _ _ _ _ _ Hfile).
    + intros (e & He & <- & Hok & Hfresh & ->).
      rewrite (CacheFacts.cache_get_entry _ _ _ _ _ e He).
      by rewrite !decide_True.
  - intros r w'. apply CacheFacts.cache_get_fs.
  - intros e He Hpos Hstored Hnow Heq. apply (Hexpired e He).
    + by apply (CacheFacts.cutoff_ok_just_expired _ _ (timestamp e)).
    + lia.
  - intros e He Hbad. rewrite (CacheFacts.cache_get_entry _ _ _ _ _ e He).
    by rewrite decide_False.
Qed.

(** C2, as the specification states it, fails: an entry written at noon
    and read at the same instant with a time to live of 20,000,000 hours
    has age 0, below the time to live, and yet is not returned: the
    cut-off date would lie before year 1 and the read raises. *)
Lemma cache_get_overflows :
  let e := {| timestamp := noon; results := [song_a] |} in
  let w := Cache.stored empty_world (lit "./cache/x.pkl") e in
  files (fs w) !! lit "./cache/x.pkl" = Some (Pickled e)
  /\ (noon - timestamp e < timedelta_hours 20000000)%Z
  /\ cache_get (lit "./cache/x.pkl") 20000000 noon (lit "x") w
     = (Raise OverflowError, w).
Proof. vm_compute. repeat split. Qed.

(** C6, as the code has it.  After [payload] was written for a path, the
    file holds the payload and the time of the write, and a read with a
    positive time to live that does not reach back beyond the start of
    year 1, made at once or at any time before the time to live has
    passed, returns that payload; [search_music] then answers from the
    cache without asking the service. *)
Theorem put_then_get (query : str) (payload : list Song) (cache_duration : Z)
    (now : datetime) (w : World) :
  let p := cache_path query in
  let w1 := Cache.stored w p {| timestamp := now; results := payload |} in
  let hit := (Ok (Some payload), Cache.printed w1 (UsingCached query)) in
  writable (fs w) p = true ->
  (0 < cache_duration)%Z ->
  (timedelta_hours cache_duration <= now <= datetime_max)%Z ->
  cache_put p now payload w = (Ok tt, w1)
  /\ files (fs w1) !! p = Some (Pickled {| timestamp := now; results := payload |})
  /\ cache_get p cache_duration now query w1 = hit
  /\ (forall later,
        (now <= later < now + timedelta_hours cache_duration)%Z ->
        (later <= datetime_max)%Z ->
        cache_get p cache_duration later query w1 = hit)
  /\ (forall youtube now_write max_results,
        search_music youtube now now_write query max_results cache_duration w1
        = (Ok payload, Cache.printed w1 (UsingCached query))).
Proof.
  intros p w1 hit Hw Hpos Hrange.
  assert (Hfile : files (fs w1) !! p
                  = Some (Pickled {| timestamp := now; results := payload |}))
    by apply lookup_insert_eq.
  assert (Hfresh : forall later,
            (now <= later < now + timedelta_hours cache_duration)%Z ->
            Cache.fresh cache_duration later
              {| timestamp := now; results := payload |}).
  { intros later H. unfold Cache.fresh. cbn. lia. }
  assert (Hok : forall later,
            (now <= later)%Z -> (later <= datetime_max)%Z ->
            Cache.cutoff_ok cache_duration later).
  { intros later H1 H2. apply CacheFacts.cutoff_ok_within; lia. }
  assert (Hnow : (now <= now < now + timedelta_hours cache_duration)%Z)
    by (unfold timedelta_hours; lia).
  refine (conj _ (conj Hfile (conj _ (conj _ _)))).
  - by apply CacheFacts.cache_put_writable.
  - subst hit. rewrite (CacheFacts.cache_get_entry _ _ _ _ _ _ Hfile).
    rewrite decide_True by (apply Hok; lia).
    by rewrite decide_True by auto.
  - intros later Hlater Hmax. subst hit.
    rewrite (CacheFacts.cache_get_entry _ _ _ _ _ _ Hfile).
    rewrite decide_True by (apply Hok; lia).
    by rewrite decide_True by auto.
  - intros youtube now_write max_results.
    rewrite (CacheFacts.search_music_hit _ _ _ _ _ _ _ _ Hfile); [done | |].
    + apply Hok; lia.
    + by apply Hfresh.
Qed.

Lemma put_then_get_witness :
  cache_get (cache_path (lit "lofi beats")) 1%Z noon
    (lit "lofi beats")
    (Cache.stored empty_world (cache_path (lit "lofi beats"))
       {| timestamp := noon; results := [song_a] |})
  = (Ok (Some [song_a]),
     Cache.printed
       (Cache.stored empty_world (cache_path (lit "lofi beats"))
          {| timestamp := noon; results := [song_a] |})
       (UsingCached (lit "lofi beats"))).
Proof.
  refine (proj1 (proj2 (proj2 (put_then_get (lit "lofi beats") [song_a] 1%Z noon
                                 empty_world _ _ _)))).
  - reflexivity.
  - lia.
  - vm_compute. split; discriminate.
Defined.

(** C6, as the specification states it, fails for a time to live that
    reaches back beyond year 1: the payload written at noon is not
    returned by the read made at the same instant with a time to live of
    20,000,000 hours, and [search_music] raises. *)
Lemma put_then_get_overflows :
  let p := cache_path (lit "lofi beats") in
  let w1 := snd (cache_put p noon [song_a] empty_world) in
  (0 < 20000000)%Z
  /\ files (fs w1) !! p
     = Some (Pickled {| timestamp := noon; results := [song_a] |})
  /\ cache_get p 20000000 noon (lit "lofi beats") w1 = (Raise OverflowError, w1)
  /\ search_music offline noon noon (lit "lofi beats") 50 20000000 w1
     = (Raise OverflowError, w1).
Proof. vm_compute. repeat split. Qed.

(** C10. The cache key is not injective: only blanks are replaced, so
    ['a b'] and ['a_b'] share one key, and whenever two queries share a
    key the payload stored for one of them is what [search_music] returns
    for the other while the entry is fresh. *)
Theorem cache_key_collision :
  lit "a b" <> lit "a_b"
  /\ cache_key (lit "a b") = cache_key (lit "a_b")
  /\ forall (q1 q2 : str) (youtube : YouTube) (payload : list Song)
       (cache_duration : Z) (stored_at now_read now_write : datetime)
       (max_results : nat) (w : World),
       cache_key q1 = cache_key q2 ->
       writable (fs w) (cache_path q1) = true ->
       Cache.cutoff_ok cache_duration now_read ->
       (now_read - stored_at < timedelta_hours cache_duration)%Z ->
       let w1 := snd (cache_put (cache_path q1) stored_at payload w) in
       search_music youtube now_read now_write q2 max_results cache_duration w1
       = (Ok payload, Cache.printed w1 (UsingCached q2)).
Proof.
  split; [done |]. split; [done |].
  intros q1 q2 youtube payload cache_duration stored_at now_read now_write
    max_results w Hkey Hw Hok Hfresh w1.
  subst w1. rewrite (CacheFacts.cache_put_writable _ _ _ _ Hw). cbn [snd].
  assert (cache_path q2 = cache_path q1) as Hpath
    by (unfold cache_path; by rewrite Hkey).
  apply (CacheFacts.search_music_hit _ _ _ _ _ _ _
           {| timestamp := stored_at; results := payload |}); [| done | done].
  rewrite Hpath. apply lookup_insert_eq.
Qed.

Lemma cache_key_collision_witness :
  search_music offline quarter_past quarter_past (lit "a_b") 50 24%Z
    (snd (cache_put (cache_path (lit "a b")) noon [song_a] empty_world))
  = (Ok [song_a],
     Cache.printed
       (snd (cache_put (cache_path (lit "a b")) noon [song_a] empty_world))
       (UsingCached (lit "a_b"))).
Proof.
  refine (proj2 (proj2 cache_key_collision) (lit "a b") (lit "a_b") offline
            [song_a] 24%Z noon quarter_past quarter_past 50 empty_world
            _ _ _ _).
  - reflexivity.
  - reflexivity.
  - vm_compute. repeat split; discriminate.
  - reflexivity.
Defined.

(** C3, as the code has it.  [search_music] catches the [HttpError] of
    the service and nothing else.  A cache file that cannot be opened or
    does not unpickle makes the request raise before anything is
    fetched; an absent file or
    an expired entry is a miss, after which the results are fetched, and
    if the cache file cannot be written then, the request raises instead
    of returning them; if it can, they are stored and returned. *)
Theorem cache_failure_propagates (youtube : YouTube)
    (now_read now_write : datetime) (query : str) (max_results : nat)
    (cache_duration : Z) (w : World) :
  let p := cache_path query in
  let request :=
    search_music youtube now_read now_write query max_results cache_duration in
  (files (fs w) !! p = Some Garbage ->
   request w = (Raise UnpicklingError, w))
  /\ (files (fs w) !! p = Some Unreadable ->
      request w = (Raise OSError, w))
  /\ (forall found w',
        Cache.miss w p cache_duration now_read ->
        Cache.fetch youtube query max_results w = (Ok found, w') ->
        writable (fs w) p = false ->
        request w = (Raise OSError, w'))
  /\ (forall found w',
        Cache.miss w p cache_duration now_read ->
        Cache.fetch youtube query max_results w = (Ok found, w') ->
        writable (fs w) p = true ->
        request w =
        (Ok found,
         Cache.stored w' p {| timestamp := now_write; results := found |})).
Proof.
  intros p request. subst request. repeat split.
  - intros Hfile. unfold search_music, mbind at 1.
    by rewrite (CacheFacts.cache_get_garbage _ _ _ _ _ Hfile).
  - intros Hfile. unfold search_music, mbind at 1.
    by rewrite (CacheFacts.cache_get_unreadable _ _ _ _ _ Hfile).
  - intros found w' Hmiss Hfetch Hdenied.
    rewrite (CacheFacts.search_music_miss _ _ _ _ _ _ _ Hmiss), Hfetch.
    rewrite CacheFacts.cache_put_denied; [done |].
    by rewrite (CacheFacts.fetch_fs _ _ _ _ _ _ Hfetch).
  - intros found w' Hmiss Hfetch Hallowed.
    rewrite (CacheFacts.search_music_miss _ _ _ _ _ _ _ Hmiss), Hfetch.
    rewrite CacheFacts.cache_put_writable; [done |].
    by rewrite (CacheFacts.fetch_fs _ _ _ _ _ _ Hfetch).
Qed.

Lemma cache_failure_propagates_witness :
  search_music one_hit 0%Z 0%Z (lit "x") 50 24%Z corrupt_world
  = (Raise UnpicklingError, corrupt_world)
  /\ search_music one_hit 0%Z 0%Z (lit "AC/DC") 50 24%Z fresh_cache_dir
     = (Raise OSError, fresh_cache_dir).
Proof.
  split.
  - refine (proj1 (cache_failure_propagates one_hit 0%Z 0%Z (lit "x") 50 24%Z
                     corrupt_world) _).
    vm_compute. reflexivity.
  - refine (proj1 (proj2 (proj2 (cache_failure_propagates one_hit 0%Z 0%Z
                            (lit "AC/DC") 50 24%Z fresh_cache_dir)))
              [song_a] fresh_cache_dir _ _ _).
    + left. vm_compute. reflexivity.
    + vm_compute. reflexivity.
    + vm_compute. reflexivity.
Defined.

(** C3, as the specification states it, fails: with a cache file that
    does not unpickle the request raises although an absent file would
    have led to the fetched results, and a query whose cache file cannot
    be created loses the results it has fetched. *)
Lemma cache_failure_aborts_search :
  fst (search_music one_hit 0%Z 0%Z (lit "x") 50 24%Z empty_world)
    = Ok [song_a]
  /\ fst (search_music one_hit 0%Z 0%Z (lit "x") 50 24%Z corrupt_world)
     = Raise UnpicklingError
  /\ fst (Cache.fetch one_hit (lit "AC/DC") 50 fresh_cache_dir) = Ok [song_a]
  /\ fst (search_music one_hit 0%Z 0%Z (lit "AC/DC") 50 24%Z fresh_cache_dir)
     = Raise OSError.
Proof. repeat split; vm_compute; reflexivity. Qed.



(** C5, as the code has it.  Every page is requested with size
    [min(50, max_results - len(videos))]; an item without a video
    identifier is passed over, so that a page gives what its items with
    an identifier give: it adds nothing to the accumulated list, every
    other item adds one song; the loop issues no request once
    [max_results] videos are held and otherwise ends after a page
    exactly when that page has no continuation token or the count has
    reached [max_results].  The
    returned list does not exceed [max_results] provided that no page
    carries more items than the size requested for it, and the loop ends
    within [max_results] pages provided that every page announcing a
    further page carries a video that still exists. *)
Theorem liked_videos_pagination (youtube : YouTube) (liked_playlist_id : str)
    (max_results : nat) :
  (forall videos token w,
     liked_page youtube liked_playlist_id max_results videos token w =
     match playlistItems_list youtube liked_playlist_id
             (Nat.min 50 (max_results - length videos)) token with
     | Ok page =>
         match liked_items youtube (items page) videos w with
         | (Ok vs, w') => (Ok (vs, nextPageToken page), w')
         | (Raise e, w') => (Raise e, w')
         end
     | Raise e => (Raise e, w)
     end)
  /\ (forall item rest videos w,
        pi_videoId item = None ->
        liked_items youtube (item :: rest) videos w
        = liked_items youtube rest videos w)
  /\ (forall found videos w,
        liked_items youtube found videos w
        = liked_items youtube (Liked.existing found) videos w)
  /\ (forall found videos w vs w',
        liked_items youtube found videos w = (Ok vs, w') ->
        exists new,
          vs = videos ++ new /\ map id new = omap pi_videoId found)
  /\ (forall fuel videos token w,
        max_results <= length videos ->
        liked_loop fuel youtube liked_playlist_id max_results videos token w
        = Some (Ok videos, w))
  /\ (forall fuel videos token w vs tok w',
        length videos < max_results ->
        liked_page youtube liked_playlist_id max_results videos token w
        = (Ok (vs, tok), w') ->
        liked_loop (S fuel) youtube liked_playlist_id max_results videos token w
        = if negb (truthy tok) || Nat.leb max_results (length vs)
          then Some (Ok vs, w')
          else liked_loop fuel youtube liked_playlist_id max_results vs tok w')
  /\ (Liked.honours_page_size youtube ->
      forall fuel use_oauth w vs w',
        get_liked_videos fuel use_oauth youtube max_results w = Some (Ok vs, w') ->
        length vs <= max_results)
  /\ (Liked.productive youtube ->
      forall use_oauth w,
        get_liked_videos max_results use_oauth youtube max_results w <> None).
Proof.
  refine (conj _ (conj _ (conj _ (conj _ (conj _ (conj _ (conj _ _))))))).
  - intros. apply LikedFacts.liked_page_eq.
  - intros. by apply LikedFacts.liked_items_removed.
  - intros. apply LikedFacts.liked_items_existing.
  - intros found videos w vs w'. apply LikedFacts.liked_items_spec.
  - intros. by apply LikedFacts.liked_loop_done.
  - intros. by apply LikedFacts.liked_loop_step.
  - intros Hsize fuel use_oauth w vs w'. unfold get_liked_videos.
    destruct use_oauth; cbn [negb].
    + destruct (channels_list_mine youtube) as [[|pl others]|e].
      * intros [= <- <-]. cbn. lia.
      * destruct (liked_loop fuel youtube pl max_results [] None w)
          as [[[vs1|e] w1]|] eqn:Hloop; cbn; [| | done].
        -- intros [= <- <-].
           apply (LikedFacts.liked_loop_bound youtube pl max_results Hsize
                    fuel [] None w vs1 w1); [cbn; lia | done].
        -- destruct e; intros [= <- <-]; cbn; lia.
      * destruct e; intros [= <- <-]; cbn; lia.
    + intros [= <- <-]. cbn. lia.
  - intros Hprod use_oauth w. unfold get_liked_videos.
    destruct use_oauth; cbn [negb]; [| done].
    destruct (channels_list_mine youtube) as [[|pl others]|e]; [done | | done].
    pose proof (LikedFacts.liked_loop_ends youtube pl max_results Hprod
                  max_results [] None w ltac:(cbn; lia)) as Hends.
    by destruct (liked_loop max_results youtube pl max_results [] None w).
Qed.

(** Three liked videos, the second of them removed: the removed one is
    passed over and the two others are returned. *)
Lemma liked_videos_pagination_witness :
  get_liked_videos 3 true one_removed 10 empty_world
  = Some (Ok [song_a; song_a], empty_world)
  /\ liked_items one_removed [liked None; liked (Some (lit "dQw4"))] []
       empty_world
     = liked_items one_removed [liked (Some (lit "dQw4"))] [] empty_world
  /\ length [song_a; song_a] <= 10.
Proof.
  pose proof (liked_videos_pagination one_removed (lit "LL") 10)
    as (_ & Hskip & _ & _ & _ & _ & Hbound & _).
  refine (conj _ (conj _ _)).
  - vm_compute. reflexivity.
  - apply Hskip. reflexivity.
  - refine (Hbound _ 3 true empty_world [song_a; song_a] empty_world _).
    + intros playlist_id size token page [= <-]. cbn [items].
      rewrite length_take. lia.
    + vm_compute. reflexivity.
Defined.

(** C5, as the specification states it, fails: asked for at most two
    liked videos, the operation requests a page of size two and returns
    the three videos the source has put on that page. *)
Lemma liked_videos_exceed_maximum :
  get_liked_videos 3 true generous 2 empty_world
  = Some (Ok [song_a; song_a; song_a], empty_world)
  /\ 2 < length [song_a; song_a; song_a].
Proof. split; [vm_compute; reflexivity | cbn; lia]. Qed.

(** Asking for 120: three pages of 50, 50 and 20 when the source has
    more, everything the source has when it has less. *)
Example liked_120_of_130 :
  option_map (fun r => match fst r with Ok vs => length vs | Raise _ => 0 end)
    (get_liked_videos 3 true (paged 130) 120 empty_world) = Some 120
  /\ option_map (fun r => match fst r with Ok vs => length vs | Raise _ => 0 end)
       (get_liked_videos 3 true (paged 110) 120 empty_world) = Some 110
  /\ get_liked_videos 2 true (paged 130) 120 empty_world = None.
Proof. repeat split; vm_compute; reflexivity. Qed.

(** * Further properties of the code *)

(** ** [_parse_duration] *)

(** X1. A duration [PT#H#M#S], in which each of the three components may
    be left out and a component is a run of decimal digits, parses to
    the number of seconds it denotes. *)
Theorem parse_duration_time (h m s : option str) :
  Duration.field_ok h -> Duration.field_ok m -> Duration.field_ok s ->
  _parse_duration (lit "PT" ++ Duration.iso_time h m s)
  = Ok (3600 * Duration.field_value h + 60 * Duration.field_value m
        + Duration.field_value s)%Z.
Proof.
  intros Hh Hm Hs. unfold _parse_duration.
  change (drop 2 (lit "PT" ++ Duration.iso_time h m s))
    with (Duration.iso_time h m s).
  DurationFacts.parse_stages. f_equal. lia.
Qed.

Lemma parse_duration_time_witness :
  _parse_duration (lit "PT" ++ Duration.iso_time (Some (lit "1")) None
                               (Some (lit "05")))
  = Ok (3600 * 1 + 60 * 0 + 5)%Z.
Proof.
  refine (parse_duration_time (Some (lit "1")) None (Some (lit "05")) _ _ _).
  - split; [done |]. vm_compute. repeat constructor.
  - exact I.
  - split; [done |]. vm_compute. repeat constructor.
Defined.


(** X2. A duration that has none of the designators [H], [M], [S] behind
    its first two characters parses to 0 seconds: the empty duration
    [PT], and also a duration made of days or weeks only such as [P1D]. *)
Theorem parse_duration_zero (duration_str : str) :
  72%N ∉ drop 2 duration_str ->
  77%N ∉ drop 2 duration_str ->
  83%N ∉ drop 2 duration_str ->
  _parse_duration duration_str = Ok 0%Z.
Proof.
  intros Hh Hm Hs. unfold _parse_duration.
  change (lit "H") with [72%N]. change (lit "M") with [77%N].
  change (lit "S") with [83%N]. cbv zeta.
  rewrite DurationFacts.stage_absent by done. cbn [bind fst snd].
  rewrite DurationFacts.stage_absent by done. cbn [bind fst snd].
  by rewrite DurationFacts.stage_absent by done.
Qed.

Lemma parse_duration_zero_witness :
  _parse_duration (lit "P1D") = Ok 0%Z.
Proof.
  refine (parse_duration_zero (lit "P1D") _ _ _);
    intros H; apply list_elem_of_In in H; vm_compute in H;
    destruct H as [H | []]; discriminate H.
Defined.

(** X3. A duration with a day component in front of a time part,
    [P#DT...] with at least one of hours, minutes, seconds, makes
    [_parse_duration] raise [ValueError]: the two characters it drops are
    [P] and the first digit of the days, and what is left of the days
    ends up in the first number it converts. *)
Theorem parse_duration_days (days : str) (h m s : option str) :
  Duration.is_digits days ->
  Duration.field_ok h -> Duration.field_ok m -> Duration.field_ok s ->
  h <> None \/ m <> None \/ s <> None ->
  _parse_duration (lit "P" ++ days ++ lit "DT" ++ Duration.iso_time h m s)
  = Raise ValueError.
Proof.
  intros [Hne Hdays] Hh Hm Hs Hsome.
  destruct days as [|d0 days]; [done |].
  inversion Hdays as [|? ? _ Hrest]; subst.
  unfold _parse_duration.
  change (drop 2 (lit "P" ++ (d0 :: days) ++ lit "DT" ++ Duration.iso_time h m s))
    with (days ++ [68; 84]%N ++ Duration.iso_time h m s).
  change (lit "H") with [72%N]. change (lit "M") with [77%N].
  change (lit "S") with [83%N]. cbv zeta. unfold Duration.iso_time.
  set (junk := days ++ [68; 84]%N).
  assert (Hbad : 68%N ∈ junk)
    by (apply elem_of_app; right; left).
  assert (Hnum : Duration.not_numeric 68) by (by repeat split).
  assert (Hjunk : forall c, Re.ascii_digit c = false -> c <> 68%N -> c <> 84%N ->
                            c ∉ junk).
  { intros c Hc H1 H2 [Hin | Hin]%elem_of_app.
    - by apply (DurationFacts.digits_without days c Hrest Hc).
    - apply elem_of_cons in Hin as [-> | Hin]; [done |].
      apply list_elem_of_singleton in Hin. done. }
  rewrite (app_assoc days). fold junk.
  destruct h as [hs|].
  { cbn [Duration.component]. destruct Hh as [_ Hhs].
    rewrite <- (app_assoc hs). cbn [app]. rewrite (app_assoc junk).
    rewrite (DurationFacts.stage_polluted 72 68); try done.
    - intros [Hin | Hin]%elem_of_app; [by apply (Hjunk 72%N) |].
      by apply (DurationFacts.digits_without hs 72%N Hhs).
    - apply elem_of_app. by left. }
  cbn [Duration.component app].
  rewrite DurationFacts.stage_absent.
  2: { intros [Hin | [Hin | Hin]%elem_of_app]%elem_of_app.
       - by apply (Hjunk 72%N).
       - revert Hin. by apply DurationFacts.component_without.
       - revert Hin. by apply DurationFacts.component_without. }
  cbn [bind fst snd].
  destruct m as [ms|].
  { cbn [Duration.component]. destruct Hm as [_ Hms].
    rewrite <- (app_assoc ms). cbn [app]. rewrite (app_assoc junk).
    rewrite (DurationFacts.stage_polluted 77 68); try done.
    - intros [Hin | Hin]%elem_of_app; [by apply (Hjunk 77%N) |].
      by apply (DurationFacts.digits_without ms 77%N Hms).
    - apply elem_of_app. by left. }
  cbn [Duration.component app].
  rewrite DurationFacts.stage_absent.
  2: { intros [Hin | Hin]%elem_of_app.
       - by apply (Hjunk 77%N).
       - revert Hin. by apply DurationFacts.component_without. }
  cbn [bind fst snd].
  destruct s as [ss|]; [| by destruct Hsome as [? | [? | ?]]].
  cbn [Duration.component]. destruct Hs as [_ Hss].
  rewrite (app_assoc junk).
  rewrite (DurationFacts.last_stage_polluted 68); try done.
  - intros [Hin | Hin]%elem_of_app; [by apply (Hjunk 83%N) |].
    by apply (DurationFacts.digits_without ss 83%N Hss).
  - apply elem_of_app. by left.
Qed.

Lemma parse_duration_days_witness :
  _parse_duration (lit "P" ++ lit "1" ++ lit "DT"
                   ++ Duration.iso_time (Some (lit "2")) (Some (lit "3")) None)
  = Raise ValueError.
Proof.
  refine (parse_duration_days (lit "1") (Some (lit "2")) (Some (lit "3")) None
            _ _ _ _ _).
  - split; [done |]. vm_compute. repeat constructor.
  - split; [done |]. vm_compute. repeat constructor.
  - split; [done |]. vm_compute. repeat constructor.
  - exact I.
  - left. done.
Defined.

(** ** [get_video_details] *)

(** X4. [get_video_details] answers with the empty dict when the service
    raises [HttpError] (after printing it) and when the service knows no
    such video; whatever the service does, [HttpError] does not leave it
    and the cache storage is left as it was. *)
Theorem get_video_details_fail_soft (youtube : YouTube) (video_id : str)
    (w : World) :
  (forall status content,
     videos_list youtube video_id = Raise (HttpError status content) ->
     get_video_details youtube video_id w
     = (Ok None, Cache.printed w (HttpErrorOccurred status content)))
  /\ (videos_list youtube video_id = Ok [] ->
      get_video_details youtube video_id w = (Ok None, w))
  /\ (forall r w',
        get_video_details youtube video_id w = (r, w') ->
        fs w' = fs w /\ forall status content, r <> Raise (HttpError status content)).
Proof.
  refine (conj _ (conj _ _)).
  - intros status content. apply HitsFacts.get_video_details_http.
  - apply HitsFacts.get_video_details_unknown.
  - intros r w'. apply CacheFacts.get_video_details_spec.
Qed.

Lemma get_video_details_fail_soft_witness :
  get_video_details offline (lit "dQw4") empty_world
  = (Ok None,
     Cache.printed empty_world (HttpErrorOccurred 503 (lit "backendError"))).
Proof.
  refine (proj1 (get_video_details_fail_soft offline (lit "dQw4") empty_world)
            503%Z (lit "backendError") _).
  reflexivity.
Defined.

(** X5. For a video whose duration is [PT#H#M#S] and whose counts are
    runs of digits, [get_video_details] returns the duration in seconds,
    the view count (0 when the statistics have none), the like count
    (absent when the statistics have none), the tags (none when absent)
    and the category, and prints nothing; only the first video of the
    answer is looked at. *)
Theorem get_video_details_well_formed (youtube : YouTube) (video_id : str)
    (w : World) (video : VideoResource) (others : list VideoResource)
    (h m s views likes : option str) :
  videos_list youtube video_id = Ok (video :: others) ->
  v_duration video = lit "PT" ++ Duration.iso_time h m s ->
  Duration.field_ok h -> Duration.field_ok m -> Duration.field_ok s ->
  v_viewCount video = views -> Duration.field_ok views ->
  v_likeCount video = likes -> Duration.field_ok likes ->
  get_video_details youtube video_id w
  = (Ok (Some {| vd_duration :=
                   (3600 * Duration.field_value h
                    + 60 * Duration.field_value m
                    + Duration.field_value s)%Z;
                 vd_view_count := Duration.field_value views;
                 vd_like_count := Duration.decimal_value <$> likes;
                 vd_tags := default [] (v_tags video);
                 vd_category := v_categoryId video |}),
     w).
Proof.
  intros Hlist Hdur Hh Hm Hs <- Hviews <- Hlikes.
  unfold get_video_details, except_HttpError, mbind, lift, ret.
  assert (_parse_duration (lit "PT" ++ Duration.iso_time h m s)
          = Ok (3600 * Duration.field_value h + 60 * Duration.field_value m
                + Duration.field_value s)%Z) as Hparse.
  { unfold _parse_duration.
    change (drop 2 (lit "PT" ++ Duration.iso_time h m s))
      with (Duration.iso_time h m s).
    DurationFacts.parse_stages. f_equal. lia. }
  rewrite Hlist, Hdur, Hparse.
  assert (int_or_zero (v_viewCount video)
          = Ok (Duration.field_value (v_viewCount video))) as ->.
  { unfold int_or_zero. destruct (v_viewCount video) as [ds|]; [| done].
    by apply DurationFacts.py_int_digits. }
  destruct (v_likeCount video) as [ds|]; cbn [fmap option_fmap option_map].
  - by rewrite (DurationFacts.py_int_digits ds Hlikes).
  - done.
Qed.

Lemma get_video_details_well_formed_witness :
  get_video_details one_hit (lit "dQw4") empty_world
  = (Ok (Some {| vd_duration := (3600 * 0 + 60 * 3 + 32)%Z;
                 vd_view_count := 10;
                 vd_like_count := None;
                 vd_tags := [lit "pop"];
                 vd_category := Some (lit "10") |}),
     empty_world).
Proof.
  refine (get_video_details_well_formed one_hit (lit "dQw4") empty_world
            video_a [] None (Some (lit "3")) (Some (lit "32"))
            (Some (lit "10")) None _ _ _ _ _ _ _ _ _);
    try reflexivity; try exact I;
    (split; [done | vm_compute; repeat constructor]).
Defined.

(** ** [search_music] *)

(** X6. Whatever the service and the cache hold, [search_music] either
    leaves the storage exactly as it was, or returns a list of songs and
    has replaced the cache file of its own query by that list with the
    time of the write; no other file is ever touched. *)
Theorem search_music_storage (youtube : YouTube)
    (now_read now_write : datetime) (query : str) (max_results : nat)
    (cache_duration : Z) (w : World) (r : Outcome (list Song)) (w' : World) :
  search_music youtube now_read now_write query max_results cache_duration w
  = (r, w') ->
  (fs w' = fs w
   \/ exists found,
        r = Ok found
        /\ fs w' = {| files := <[cache_path query :=
                                   Pickled {| timestamp := now_write;
                                              results := found |}]>
                                 (files (fs w));
                      writable := writable (fs w) |})
  /\ writable (fs w') = writable (fs w)
  /\ forall p, p <> cache_path query ->
               files (fs w') !! p = files (fs w) !! p.
Proof.
  intros Hrun.
  assert (Hcases : fs w' = fs w
   \/ exists found,
        r = Ok found
        /\ fs w' = {| files := <[cache_path query :=
                                   Pickled {| timestamp := now_write;
                                              results := found |}]>
                                 (files (fs w));
                      writable := writable (fs w) |}).
  { assert (Hmiss : Cache.miss w (cache_path query) cache_duration now_read ->
              fs w' = fs w
              \/ exists found,
                   r = Ok found
                   /\ fs w' = {| files := <[cache_path query :=
                                   Pickled {| timestamp := now_write;
                                              results := found |}]>
                                 (files (fs w));
                                 writable := writable (fs w) |}).
    { intros Hmiss. rewrite (CacheFacts.search_music_miss _ _ _ _ _ _ _ Hmiss) in Hrun.
      destruct (Cache.fetch youtube query max_results w) as [[found|e] w1] eqn:Hfetch.
      - pose proof (CacheFacts.fetch_fs _ _ _ _ _ _ Hfetch) as Hfs.
        destruct (writable (fs w1) (cache_path query)) eqn:Hw.
        + rewrite (CacheFacts.cache_put_writable _ _ _ _ Hw) in Hrun.
          injection Hrun as <- <-. right. exists found. split; [done |].
          unfold Cache.stored. cbn [fs]. by rewrite Hfs.
        + rewrite (CacheFacts.cache_put_denied _ _ _ _ Hw) in Hrun.
          injection Hrun as <- <-. by left.
      - pose proof (CacheFacts.fetch_fs _ _ _ _ _ _ Hfetch) as Hfs.
        destruct e; injection Hrun as <- <-; by left. }
    destruct (files (fs w) !! cache_path query) as [[e| |]|] eqn:Hfile.
    - destruct (decide (Cache.cutoff_ok cache_duration now_read)) as [Hok|Hbad].
      + destruct (decide (Cache.fresh cache_duration now_read e))
          as [Hfresh|Hold].
        * rewrite (CacheFacts.search_music_hit _ _ _ _ _ _ _ e Hfile Hok Hfresh)
            in Hrun.
          injection Hrun as <- <-. by left.
        * apply Hmiss. right. by exists e.
      + rewrite (CacheFacts.search_music_overflow _ _ _ _ _ _ _ e Hfile Hbad)
          in Hrun.
        injection Hrun as <- <-. by left.
    - unfold search_music, mbind at 1 in Hrun.
      rewrite (CacheFacts.cache_get_garbage _ _ _ _ _ Hfile) in Hrun.
      injection Hrun as <- <-. by left.
    - unfold search_music, mbind at 1 in Hrun.
      rewrite (CacheFacts.cache_get_unreadable _ _ _ _ _ Hfile) in Hrun.
      injection Hrun as <- <-. by left.
    - apply Hmiss. by left. }
  split; [exact Hcases |].
  destruct Hcases as [-> | (found & _ & ->)]; cbn [files writable].
  - done.
  - split; [done |]. intros p Hp. by rewrite lookup_insert_ne.
Qed.

Lemma search_music_storage_witness :
  files (fs (snd (search_music one_hit 0%Z 0%Z (lit "x") 50 24%Z corrupt_world)))
    !! cache_path (lit "y")
  = files (fs corrupt_world) !! cache_path (lit "y").
Proof.
  refine (proj2 (proj2 (search_music_storage one_hit 0%Z 0%Z (lit "x") 50 24%Z
                          corrupt_world
                          (fst (search_music one_hit 0%Z 0%Z (lit "x") 50 24%Z
                                  corrupt_world))
                          (snd (search_music one_hit 0%Z 0%Z (lit "x") 50 24%Z
                                  corrupt_world)) _))
            (cache_path (lit "y")) _).
  - apply surjective_pairing.
  - vm_compute. discriminate.
Defined.

(** X7. After a miss, a fetch that fails is never cached: the storage is
    left as it was, an [HttpError] becomes the empty answer and every
    other exception (a [ValueError] from a duration or a count the code
    cannot convert, say) leaves [search_music] unhandled. *)
Theorem search_music_failed_fetch (youtube : YouTube)
    (now_read now_write : datetime) (query : str) (max_results : nat)
    (cache_duration : Z) (w : World) (e : Exn) (w1 : World) :
  Cache.miss w (cache_path query) cache_duration now_read ->
  Cache.fetch youtube query max_results w = (Raise e, w1) ->
  fs w1 = fs w
  /\ search_music youtube now_read now_write query max_results cache_duration w
     = match e with
       | HttpError status content =>
           (Ok [], Cache.printed w1 (HttpErrorOccurred status content))
       | _ => (Raise e, w1)
       end.
Proof.
  intros Hmiss Hfetch. split.
  - by apply (CacheFacts.fetch_fs _ _ _ _ _ _ Hfetch).
  - rewrite (CacheFacts.search_music_miss _ _ _ _ _ _ _ Hmiss), Hfetch.
    by destruct e.
Qed.

Lemma search_music_failed_fetch_witness :
  search_music long_video 0%Z 0%Z (lit "x") 50 24%Z empty_world
  = (Raise ValueError, empty_world).
Proof.
  refine (proj2 (search_music_failed_fetch long_video 0%Z 0%Z (lit "x") 50 24%Z
                   empty_world ValueError empty_world _ _)).
  - left. vm_compute. reflexivity.
  - vm_compute. reflexivity.
Defined.

(** X8. After a miss, when the search request is answered, a list that
    [search_music] returns has one song per hit, in the order of the
    hits, each with the identifier, title, channel, date, description and
    thumbnail of its hit; [max_results] is handed to the service and not
    enforced on the answer. *)
Theorem search_music_mirrors_hits (youtube : YouTube)
    (now_read now_write : datetime) (query : str) (max_results : nat)
    (cache_duration : Z) (w : World) (hits : list SearchItem)
    (found : list Song) (w' : World) :
  Cache.miss w (cache_path query) cache_duration now_read ->
  search_list youtube query max_results = Ok hits ->
  search_music youtube now_read now_write query max_results cache_duration w
  = (Ok found, w') ->
  map Hits.listed found = map Hits.hit_listed hits
  /\ length found = length hits.
Proof.
  intros Hmiss Hlist Hrun.
  rewrite (CacheFacts.search_music_miss _ _ _ _ _ _ _ Hmiss) in Hrun.
  unfold Cache.fetch, mbind at 1, lift in Hrun. rewrite Hlist in Hrun.
  destruct (search_items youtube hits [] w) as [[vs|e] w1] eqn:Hitems.
  - apply HitsFacts.search_items_spec in Hitems as (new & -> & Hnew).
    cbn [app] in Hrun.
    assert (found = new) as ->.
    { destruct (writable (fs w1) (cache_path query)) eqn:Hw.
      - rewrite (CacheFacts.cache_put_writable _ _ _ _ Hw) in Hrun.
        by injection Hrun as <- _.
      - by rewrite (CacheFacts.cache_put_denied _ _ _ _ Hw) in Hrun. }
    split; [done |].
    apply (f_equal length) in Hnew. by rewrite !length_map in Hnew.
  - pose proof (HitsFacts.search_items_no_http _ _ _ _ _ _ Hitems) as Hno.
    destruct e; try discriminate Hrun. by destruct (Hno status content).
Qed.

Lemma search_music_mirrors_hits_witness :
  map Hits.listed [song_a] = map Hits.hit_listed [hit_a]
  /\ length [song_a] = length [hit_a].
Proof.
  refine (search_music_mirrors_hits one_hit 0%Z 0%Z (lit "x") 50 24%Z
            empty_world [hit_a] [song_a]
            (snd (search_music one_hit 0%Z 0%Z (lit "x") 50 24%Z empty_world))
            _ _ _).
  - left. vm_compute. reflexivity.
  - reflexivity.
  - vm_compute. reflexivity.
Defined.

(** X9. When the details request fails with [HttpError] for every video,
    the search still succeeds after a miss: it prints the error once per
    hit, returns every hit as a song without duration, counts, tags and
    category, and stores that list in the cache like any other answer. *)
Theorem search_music_without_details (youtube : YouTube)
    (now_read now_write : datetime) (query : str) (max_results : nat)
    (cache_duration : Z) (w : World) (hits : list SearchItem)
    (status : Z) (content : str) :
  Cache.miss w (cache_path query) cache_duration now_read ->
  writable (fs w) (cache_path query) = true ->
  search_list youtube query max_results = Ok hits ->
  (forall video_id,
     videos_list youtube video_id = Raise (HttpError status content)) ->
  search_music youtube now_read now_write query max_results cache_duration w
  = (Ok (map Hits.bare_song hits),
     Cache.stored
       (Hits.printed_times w (length hits) (HttpErrorOccurred status content))
       (cache_path query)
       {| timestamp := now_write; results := map Hits.bare_song hits |}).
Proof.
  intros Hmiss Hw Hlist Hdetails.
  rewrite (CacheFacts.search_music_miss _ _ _ _ _ _ _ Hmiss).
  unfold Cache.fetch, mbind at 1, lift. rewrite Hlist.
  rewrite (HitsFacts.search_items_bare youtube status content hits [] w Hdetails).
  cbn [app]. by rewrite CacheFacts.cache_put_writable.
Qed.

Lemma search_music_without_details_witness :
  fst (search_music no_details 0%Z 0%Z (lit "x") 50 24%Z empty_world)
  = Ok [Hits.bare_song hit_a; Hits.bare_song hit_a].
Proof.
  refine (f_equal fst
            (search_music_without_details no_details 0%Z 0%Z (lit "x") 50 24%Z
               empty_world [hit_a; hit_a] 403%Z (lit "quotaExceeded")
               _ _ _ _)).
  - left. vm_compute. reflexivity.
  - reflexivity.
  - reflexivity.
  - intros video_id. reflexivity.
Defined.

(** X10. The cache key is made of the query alone.  Once a search has
    fetched and stored its answer, a later search for the same query is
    answered with that list while the entry is fresh (and the cut-off
    date of the later search can be computed), whatever [max_results]
    the later search asks for and whatever the service would answer by
    then. *)
Theorem search_music_repeats_cached (youtube youtube' : YouTube)
    (now_read now_write now_read' now_write' : datetime) (query : str)
    (max_results max_results' : nat) (cache_duration cache_duration' : Z)
    (w : World) (found : list Song) (w1 : World) :
  Cache.miss w (cache_path query) cache_duration now_read ->
  Cache.fetch youtube query max_results w = (Ok found, w1) ->
  writable (fs w) (cache_path query) = true ->
  Cache.cutoff_ok cache_duration' now_read' ->
  (now_read' - now_write < timedelta_hours cache_duration')%Z ->
  exists w2,
    search_music youtube now_read now_write query max_results cache_duration w
    = (Ok found, w2)
    /\ search_music youtube' now_read' now_write' query max_results'
         cache_duration' w2
       = (Ok found, Cache.printed w2 (UsingCached query)).
Proof.
  intros Hmiss Hfetch Hw Hok Hfresh.
  exists (Cache.stored w1 (cache_path query)
            {| timestamp := now_write; results := found |}).
  split.
  - rewrite (CacheFacts.search_music_miss _ _ _ _ _ _ _ Hmiss), Hfetch.
    rewrite CacheFacts.cache_put_writable; [done |].
    by rewrite (CacheFacts.fetch_fs _ _ _ _ _ _ Hfetch).
  - apply (CacheFacts.search_music_hit _ _ _ _ _ _ _
             {| timestamp := now_write; results := found |}); [| done | done].
    apply lookup_insert_eq.
Qed.

Lemma search_music_repeats_cached_witness :
  exists w2,
    search_music one_hit noon noon (lit "x") 5 24%Z empty_world
    = (Ok [song_a], w2)
    /\ search_music offline quarter_past quarter_past (lit "x") 50 24%Z w2
       = (Ok [song_a], Cache.printed w2 (UsingCached (lit "x"))).
Proof.
  refine (search_music_repeats_cached one_hit offline noon noon quarter_past
            quarter_past (lit "x") 5 50 24%Z 24%Z empty_world [song_a]
            empty_world _ _ _ _ _).
  - left. vm_compute. reflexivity.
  - vm_compute. reflexivity.
  - reflexivity.
  - vm_compute. repeat split; discriminate.
  - reflexivity.
Defined.


(** ** [get_playlist_items] *)

(** X11. [get_playlist_items] makes one request, for the first page, and
    does not follow the continuation token.  When every item of that
    page has a video identifier it returns one entry per item, in order,
    with the fields of the item, and prints nothing; when an item has
    none (a removed video) it raises [KeyError], which its handler does
    not catch. *)
Theorem get_playlist_items_first_page (youtube : YouTube) (playlist_id : str)
    (max_results : nat) (w : World) (page : PlaylistPage) :
  playlistItems_list youtube playlist_id max_results None = Ok page ->
  (Forall (fun item => is_Some (pi_videoId item)) (items page) ->
   exists entries,
     get_playlist_items youtube playlist_id max_results w = (Ok entries, w)
     /\ Forall2 Hits.entry_of (items page) entries)
  /\ (Exists (fun item => pi_videoId item = None) (items page) ->
      get_playlist_items youtube playlist_id max_results w
      = (Raise KeyError, w)).
Proof.
  intros Hpage. split.
  - intros Hall.
    destruct (HitsFacts.playlist_entries_ok (items page) [] Hall)
      as (entries & Hentries & Hrel).
    exists entries. split; [| done].
    unfold get_playlist_items, except_HttpError, mbind, lift.
    by rewrite Hpage, Hentries.
  - intros Hex.
    unfold get_playlist_items, except_HttpError, mbind, lift.
    by rewrite Hpage, (HitsFacts.playlist_entries_missing _ _ Hex).
Qed.

Lemma get_playlist_items_first_page_witness :
  get_playlist_items with_removed (lit "PL1") 50 empty_world
  = (Raise KeyError, empty_world).
Proof.
  refine (proj2 (get_playlist_items_first_page with_removed (lit "PL1") 50
                   empty_world
                   {| items := [liked (Some (lit "dQw4")); liked None];
                      nextPageToken := None |} _) _).
  - reflexivity.
  - apply Exists_cons_tl, Exists_cons_hd. reflexivity.
Defined.

(** ** [get_liked_videos] *)

(** X12. Every video that [get_liked_videos] returns was served: its
    identifier, title, channel and date are those of an item on a page
    that the service answers for the liked playlist of the first
    channel. *)
Theorem get_liked_videos_served (fuel : nat) (use_oauth : bool)
    (youtube : YouTube) (max_results : nat) (w : World)
    (videos : list Song) (w' : World) :
  get_liked_videos fuel use_oauth youtube max_results w = Some (Ok videos, w') ->
  Forall
    (fun song =>
       exists liked_playlist_id others size token page,
         channels_list_mine youtube = Ok (liked_playlist_id :: others)
         /\ playlistItems_list youtube liked_playlist_id size token = Ok page
         /\ Hits.liked_from (items page) song)
    videos.
Proof.
  unfold get_liked_videos. destruct use_oauth; cbn [negb].
  2: { intros [= <- <-]. constructor. }
  destruct (channels_list_mine youtube) as [[|pl others]|e] eqn:Hchannel.
  - intros [= <- <-]. constructor.
  - assert (Hloop : forall fuel vs token w r w',
              Forall (fun song =>
                exists size token page,
                  playlistItems_list youtube pl size token = Ok page
                  /\ Hits.liked_from (items page) song) vs ->
              liked_loop fuel youtube pl max_results vs token w = Some (Ok r, w') ->
              Forall (fun song =>
                exists size token page,
                  playlistItems_list youtube pl size token = Ok page
                  /\ Hits.liked_from (items page) song) r).
    { clear. intros fuel. induction fuel as [|fuel IH];
        intros vs token w r w' Hvs; cbn [liked_loop];
        destruct (Nat.ltb (length vs) max_results);
        try done; try (by intros [= <- <-]).
      destruct (liked_page youtube pl max_results vs token w)
        as [[[vs1 tok1]|e] w1] eqn:Hpage; [| done].
      rewrite LikedFacts.liked_page_eq in Hpage.
      destruct (playlistItems_list youtube pl _ token) as [page|e] eqn:Hreq;
        [| done].
      destruct (liked_items youtube (items page) vs w) as [[vs2|e] w2] eqn:Hitems;
        [| done].
      injection Hpage as <- <- <-.
      apply HitsFacts.liked_items_from in Hitems as (new & -> & Hnew).
      assert (Hall : Forall (fun song =>
                exists size token page,
                  playlistItems_list youtube pl size token = Ok page
                  /\ Hits.liked_from (items page) song) (vs ++ new)).
      { apply Forall_app. split; [done |].
        eapply Forall_impl; [exact Hnew |]. intros song Hsong.
        by eexists _, token, page. }
      destruct (stop_after_page max_results (vs ++ new) (nextPageToken page)).
      - by intros [= <- <-].
      - by apply IH. }
    destruct (liked_loop fuel youtube pl max_results [] None w)
      as [[[vs|e] w1]|] eqn:Hrun; cbn; [| | done].
    + intros [= <- <-].
      eapply Forall_impl; [exact (Hloop _ _ _ _ _ _ (Forall_nil_2 _) Hrun) |].
      intros song (size & token & page & Hreq & Hfrom).
      by exists pl, others, size, token, page.
    + destruct e; intros [= <- <-]; constructor.
  - destruct e; intros [= <- <-]; constructor.
Qed.

Lemma get_liked_videos_served_witness :
  Forall
    (fun song =>
       exists liked_playlist_id others size token page,
         channels_list_mine (paged 3) = Ok (liked_playlist_id :: others)
         /\ playlistItems_list (paged 3) liked_playlist_id size token = Ok page
         /\ Hits.liked_from (items page) song)
    [song_a; song_a].
Proof.
  refine (get_liked_videos_served 3 true (paged 3) 2 empty_world
            [song_a; song_a] empty_world _).
  vm_compute. reflexivity.
Defined.

(** ** The cache key and the time to live *)

(** X13. Two queries get the same cache file exactly when they are equal
    up to exchanging blanks and underscores: that is the only way in
    which the cache can confuse two queries. *)
Theorem cache_path_collides_iff (q1 q2 : str) :
  cache_path q1 = cache_path q2 <-> Hits.same_up_to_blanks q1 q2.
Proof.
  rewrite !HitsFacts.cache_path_eq, <- HitsFacts.replace_space_eq. split.
  - intros H. apply app_inv_head in H. by apply app_inv_tail in H.
  - by intros ->.
Qed.

(** X14. A cache read that hits also hits, with the same payload, for
    every longer time to live and every earlier reading of the clock for
    which the cut-off date can still be computed, and raises
    [OverflowError] for the others; with a time to live of zero or less
    an entry written in the past is never served, so that every such
    search fetches again. *)
Theorem cache_get_time_to_live (p : str) (cache_duration : Z) (now : datetime)
    (query : str) (w : World) :
  (forall payload w' cache_duration' now',
     cache_get p cache_duration now query w = (Ok (Some payload), w') ->
     (cache_duration <= cache_duration')%Z -> (now' <= now)%Z ->
     (Cache.cutoff_ok cache_duration' now' ->
      cache_get p cache_duration' now' query w = (Ok (Some payload), w'))
     /\ (~ Cache.cutoff_ok cache_duration' now' ->
         cache_get p cache_duration' now' query w = (Raise OverflowError, w)))
  /\ (forall e,
        files (fs w) !! p = Some (Pickled e) ->
        (cache_duration <= 0)%Z -> (timestamp e <= now)%Z ->
        (Cache.cutoff_ok cache_duration now ->
         cache_get p cache_duration now query w = (Ok None, w))
        /\ forall payload w',
             cache_get p cache_duration now query w <> (Ok (Some payload), w')).
Proof.
  split.
  - intros payload w' cache_duration' now' Hhit Httl Hnow.
    destruct (files (fs w) !! p) as [[e| |]|] eqn:Hfile.
    + rewrite (CacheFacts.cache_get_entry _ _ _ _ _ e Hfile) in Hhit.
      rewrite (CacheFacts.cache_get_entry _ _ _ _ _ e Hfile).
      destruct (decide (Cache.cutoff_ok cache_duration now)); [| done].
      destruct (decide (Cache.fresh cache_duration now e)) as [Hfresh|];
        [| done].
      split; intros Hok.
      * rewrite decide_True by done. rewrite decide_True; [done |].
        unfold Cache.fresh, timedelta_hours in *. lia.
      * by rewrite decide_False.
    + by rewrite (CacheFacts.cache_get_garbage _ _ _ _ _ Hfile) in Hhit.
    + by rewrite (CacheFacts.cache_get_unreadable _ _ _ _ _ Hfile) in Hhit.
    + by rewrite (CacheFacts.cache_get_absent _ _ _ _ _ Hfile) in Hhit.
  - intros e Hfile Httl Hpast.
    rewrite (CacheFacts.cache_get_entry _ _ _ _ _ e Hfile).
    assert (~ Cache.fresh cache_duration now e) as Hold
      by (unfold Cache.fresh, timedelta_hours; lia).
    split.
    + intros Hok. by rewrite decide_True, decide_False.
    + intros payload w'. case_decide; [| done]. by rewrite decide_False.
Qed.

(** ** [filter_by_attribute] *)

(** X15. When the attribute is a column and the value a number or a text
    (or the missing value), [filter_by_attribute] prints nothing and
    returns a frame with the same columns whose rows are the rows of the
    input, in their order, whose cell equals the value; a row whose cell
    is missing or holds a list is never kept, and when no row matches the
    result is the empty frame, not an error. *)
Theorem filter_by_attribute_keeps_matches (df : DataFrame) (attribute : str)
    (value : Value) (w : World) :
  attribute ∈ columns df ->
  Frames.scalar value ->
  exists kept,
    filter_by_attribute df attribute value w = (Ok kept, w)
    /\ columns kept = columns df
    /\ rows kept `sublist_of` rows df
    /\ (forall r,
          r ∈ rows kept <->
          r ∈ rows df /\ cell attribute r = value
          /\ ((exists z, value = VInt z) \/ (exists s, value = VStr s)))
    /\ ((forall r, r ∈ rows df -> cell attribute r <> value) -> rows kept = []).
Proof.
  intros Hin _.
  assert (Heqb : forall c, cell_eqb c value = true <->
            c = value /\ ((exists z, value = VInt z) \/ (exists s, value = VStr s))).
  { intros c. destruct c as [a|a|a|], value as [b|b|b|]; cbn [cell_eqb].
    all: try (split; [done | intros [Heq [[? Hv] | [? Hv]]]; congruence]).
    - rewrite Z.eqb_eq. split.
      + intros ->. split; [done | left; by eexists].
      + by intros [[= ->] _].
    - rewrite bool_decide_eq_true. split.
      + intros ->. split; [done | right; by eexists].
      + by intros [[= ->] _]. }
  eexists. unfold filter_by_attribute. rewrite bool_decide_eq_true_2 by done.
  split; [reflexivity |]. cbn [columns rows].
  refine (conj eq_refl (conj _ (conj _ _))).
  - apply sublist_filter.
  - intros r. rewrite list_elem_of_filter, Heqb. tauto.
  - intros Hnone. induction (rows df) as [|r l IH]; [done |].
    rewrite filter_cons. rewrite decide_False.
    + apply IH. intros r' Hr'. apply Hnone. by right.
    + intros [Hc _]%Heqb. apply (Hnone r); [left | done].
Qed.

Lemma filter_by_attribute_keeps_matches_witness :
  exists kept,
    filter_by_attribute two_songs (lit "view_count") (VInt 7) empty_world
    = (Ok kept, empty_world)
    /\ rows kept = [].
Proof.
  destruct (filter_by_attribute_keeps_matches two_songs (lit "view_count")
              (VInt 7) empty_world)
    as (kept & Hrun & _ & _ & _ & Hempty).
  - apply list_elem_of_In. vm_compute. tauto.
  - exact I.
  - exists kept. split; [done |]. apply Hempty.
    intros r Hr. apply list_elem_of_In in Hr.
    destruct Hr as [<- | [<- | []]]; vm_compute; discriminate.
Defined.

(** X16. Filters on two columns of a frame, each for a number or a text,
    can be applied in either order, and applying the same filter twice
    changes nothing: the filtered frame keeps its columns, so the second
    filter finds its attribute. *)
Theorem filter_by_attribute_composes (df : DataFrame) (a1 a2 : str)
    (v1 v2 : Value) (w : World) :
  a1 ∈ columns df -> a2 ∈ columns df ->
  Frames.scalar v1 -> Frames.scalar v2 ->
  (do d1 <- filter_by_attribute df a1 v1 ;; filter_by_attribute d1 a2 v2) w
  = (do d2 <- filter_by_attribute df a2 v2 ;; filter_by_attribute d2 a1 v1) w
  /\ (do d1 <- filter_by_attribute df a1 v1 ;; filter_by_attribute d1 a1 v1) w
     = filter_by_attribute df a1 v1 w
  /\ exists kept,
       (do d1 <- filter_by_attribute df a1 v1 ;; filter_by_attribute d1 a2 v2) w
       = (Ok kept, w)
       /\ rows kept
          = filter (fun r => cell_eqb (cell a1 r) v1 = true
                             /\ cell_eqb (cell a2 r) v2 = true) (rows df).
Proof.
  intros H1 H2 _ _. unfold mbind, filter_by_attribute.
  rewrite !bool_decide_eq_true_2 by done. cbn [ret columns rows].
  rewrite !bool_decide_eq_true_2 by done. cbn [ret columns rows].
  rewrite !list_filter_filter. repeat split.
  - do 3 f_equal. apply list_filter_iff. tauto.
  - do 3 f_equal. apply list_filter_iff. tauto.
  - eexists. split; [reflexivity |]. cbn [rows].
    apply list_filter_iff. tauto.
Qed.

Lemma filter_by_attribute_composes_witness :
  (do d1 <- filter_by_attribute two_songs (lit "title") (VStr (lit "Song A")) ;;
   filter_by_attribute d1 (lit "view_count") (VInt 5)) empty_world
  = (do d2 <- filter_by_attribute two_songs (lit "view_count") (VInt 5) ;;
     filter_by_attribute d2 (lit "title") (VStr (lit "Song A"))) empty_world.
Proof.
  refine (proj1 (filter_by_attribute_composes two_songs (lit "title")
                   (lit "view_count") (VStr (lit "Song A")) (VInt 5)
                   empty_world _ _ I I)).
  - apply list_elem_of_In. vm_compute. tauto.
  - apply list_elem_of_In. vm_compute. tauto.
Defined.

(** ** [categorize_songs] *)

(** X17. [categorize_songs] never raises.  It returns a frame with one row
    per song, numbered in the order of the input; a row keeps the title
    and the tags of its song as they were given and gets the genre, the
    mood and the year found in the lower-cased text; the genre is a
    category of the genre table or ['unknown'].  The input without songs
    gives a frame without columns. *)
Theorem categorize_songs_rows (lower : str -> str)
    (unicode_alnum : char -> bool) (songs_data : list Song) :
  exists df,
    categorize_songs lower unicode_alnum songs_data = Ok df
    /\ length (rows df) = length songs_data
    /\ (songs_data = [] -> columns df = [])
    /\ (songs_data <> [] -> columns df = Frames.column_names)
    /\ forall i song,
         songs_data !! i = Some song ->
         exists row,
           rows df !! i = Some row
           /\ label row = i
           /\ cell (lit "title") row = VStr (title song)
           /\ cell (lit "tags") row = VTags (tags song)
           /\ cell (lit "genre") row = VStr (Frames.genre_of lower song)
           /\ cell (lit "mood") row = VStr (Frames.mood_of lower song)
           /\ cell (lit "release_year") row
              = opt_cell VInt (Frames.year_of lower unicode_alnum song)
           /\ Frames.genre_of lower song
              ∈ lit "unknown" :: map fst genre_keywords.
Proof.
  eexists. split; [apply FramesFacts.categorize_songs_frame |].
  cbn [rows columns]. refine (conj _ (conj _ (conj _ _))).
  - apply length_imap.
  - by intros ->.
  - by destruct songs_data.
  - intros i song Hsong.
    exists (Frames.row_of lower unicode_alnum i song).
    rewrite list_lookup_imap, Hsong.
    destruct (FramesFacts.row_cells lower unicode_alnum i song)
      as (Htitle & Htags & Hgenre & Hmood & Hyear).
    repeat split; try done.
    unfold Frames.genre_of, _detect_genre.
    generalize (song_text lower song), (map lower (tags song)).
    intros text tags'.
    destruct (for_categories genre_keywords text tags') as [[g k]|] eqn:Hcat;
      [| left].
    right. clear -Hcat. revert Hcat.
    generalize genre_keywords. intros table.
    induction table as [|[c ks] table IH]; [done |]. cbn [for_categories].
    destruct (for_keywords c ks text tags') as [hit|] eqn:Hks.
    + intros [= ->].
      apply ClassifierFacts.for_keywords_some in Hks as (? & ? & ? & _ & [= <- _] & _).
      left.
    + intros H. right. by apply IH.
Qed.

(** X18. Filtering the frame of [categorize_songs] by a genre keeps, in the
    order of the input, exactly the rows of the songs for which that
    genre was found; on the frame of an empty input the filter finds no
    column, prints its warning and returns the empty frame. *)
Theorem categorize_then_filter_genre (lower : str -> str)
    (unicode_alnum : char -> bool) (songs_data : list Song) (genre : str)
    (w : World) :
  exists df kept w',
    categorize_songs lower unicode_alnum songs_data = Ok df
    /\ filter_by_attribute df (lit "genre") (VStr genre) w = (Ok kept, w')
    /\ rows kept `sublist_of` rows df
    /\ (songs_data <> [] -> w' = w)
    /\ (songs_data = [] ->
        w' = Cache.printed w (AttributeNotFound (lit "genre")) /\ rows kept = [])
    /\ forall i song,
         songs_data !! i = Some song ->
         ((exists row, row ∈ rows kept /\ label row = i)
          <-> Frames.genre_of lower song = genre).
Proof.
  eexists. destruct songs_data as [|song0 rest].
  - eexists _, _. split; [apply FramesFacts.categorize_songs_frame |].
    cbn [imap]. unfold filter_by_attribute. cbn [columns].
    rewrite bool_decide_eq_false_2 by apply not_elem_of_nil.
    split; [reflexivity |]. cbn [rows]. repeat split; try done.
  - set (songs := song0 :: rest).
    eexists _, _. split; [apply FramesFacts.categorize_songs_frame |].
    unfold filter_by_attribute. cbn [columns].
    rewrite bool_decide_eq_true_2
      by (apply list_elem_of_In; vm_compute; tauto).
    split; [reflexivity |]. cbn [rows].
    refine (conj _ (conj _ (conj _ _))); [apply sublist_filter | done | done |].
    intros i song Hsong. split.
    + intros (row & [Hmatch Hin]%list_elem_of_filter & Hlabel).
      apply list_elem_of_lookup in Hin as (j & Hj).
      rewrite list_lookup_imap in Hj.
      destruct (songs !! j) as [song'|] eqn:Hsong'; [| done].
      injection Hj as <-. cbn [label Frames.row_of] in Hlabel. subst j.
      rewrite Hsong in Hsong'. injection Hsong' as <-.
      destruct (FramesFacts.row_cells lower unicode_alnum i song)
        as (_ & _ & Hgenre & _).
      rewrite Hgenre in Hmatch. cbn [cell_eqb] in Hmatch.
      by apply bool_decide_eq_true in Hmatch.
    + intros Hgenre. exists (Frames.row_of lower unicode_alnum i song).
      split; [| done]. apply list_elem_of_filter. split.
      * destruct (FramesFacts.row_cells lower unicode_alnum i song)
          as (_ & _ & -> & _).
        cbn [cell_eqb]. by apply bool_decide_eq_true.
      * apply list_elem_of_lookup. exists i.
        by rewrite list_lookup_imap, Hsong.
Qed.

(** ** [sort_by_attribute] and the unknown attribute *)

(** X19. An attribute that is no column of the frame makes
    [sort_by_attribute] and [filter_by_attribute] print
    [Attribute '...' not found.] and return the frame they were given,
    whatever the library's sort would do with it and whatever value was
    to be filtered for; an attribute that is a column makes
    [sort_by_attribute] print nothing and return what [sort_values]
    answers for the frame, the attribute and the direction. *)
Theorem unknown_attribute_fallback
    (sort_values : DataFrame -> str -> bool -> DataFrame)
    (df : DataFrame) (attribute : str) (ascending : bool) (value : Value)
    (w : World) :
  (attribute ∉ columns df ->
   sort_by_attribute sort_values df attribute ascending w
   = (Ok df, Cache.printed w (AttributeNotFound attribute))
   /\ filter_by_attribute df attribute value w
      = (Ok df, Cache.printed w (AttributeNotFound attribute)))
  /\ (attribute ∈ columns df ->
      sort_by_attribute sort_values df attribute ascending w
      = (Ok (sort_values df attribute ascending), w)).
Proof.
  split.
  - intros Hout. unfold sort_by_attribute, filter_by_attribute.
    by rewrite bool_decide_eq_false_2 by done.
  - intros Hin. unfold sort_by_attribute.
    by rewrite bool_decide_eq_true_2 by done.
Qed.

Lemma unknown_attribute_fallback_witness :
  sort_by_attribute (fun df _ _ => df) two_songs (lit "genre") true empty_world
  = (Ok two_songs, Cache.printed empty_world (AttributeNotFound (lit "genre")))
  /\ filter_by_attribute two_songs (lit "genre") (VStr (lit "pop")) empty_world
     = (Ok two_songs, Cache.printed empty_world (AttributeNotFound (lit "genre"))).
Proof.
  refine (proj1 (unknown_attribute_fallback (fun df _ _ => df) two_songs
                   (lit "genre") true (VStr (lit "pop")) empty_world) _).
  intros Hin. apply list_elem_of_In in Hin. vm_compute in Hin.
  destruct Hin as [Hin | [Hin | []]]; discriminate Hin.
Defined.
